(** * TMSim: the rule parser, the tiered rule store and the execution engine

    A shallow embedding of the core of [Source Code/TMSim.py] (classes
    [Tape], [Instruction], [Program] and [Machine]) and the properties
    of it that the specification states.

    Conventions of the embedding.
    - A Python [str] is a [string]; its characters stand for the code
      points 0..255.  Case folding, white space and line boundaries are
      those of Python on that range.
    - A Python [int] is a [Z]; a [dict] is a [gmap]; a tuple or a list is
      a [list].
    - A method that mutates its object returns the new object.  A method
      that can raise returns the object as the exception leaves it,
      together with an [outcome]. *)

From Stdlib Require Import ZArith Ascii String List Lia.
From stdpp Require Import base option list gmap strings pretty fin_maps.

Local Open Scope string_scope.
Local Open Scope list_scope.
Local Open Scope Z_scope.

(** ** Exceptions *)

Inductive Exn : Type :=
  | TMParseError (msg : string)
  | ValueError (msg : string)
  | IndexError (msg : string).

Inductive outcome (A : Type) : Type :=
  | Returned (a : A)
  | Raised (e : Exn).

Arguments Returned {A} a.
Arguments Raised {A} e.

(** ** Python string primitives *)

Module Py.

Definition code (c : ascii) : N := N_of_ascii c.

(** [str.isspace] on one character. *)
Definition isspace (c : ascii) : bool :=
  let n := code c in
  ((9 <=? n) && (n <=? 13) || (28 <=? n) && (n <=? 32)
   || (n =? 133) || (n =? 160))%N.

(** The line boundaries of [str.splitlines]. *)
Definition islinebreak (c : ascii) : bool :=
  let n := code c in
  ((10 <=? n) && (n <=? 13) || (28 <=? n) && (n <=? 30) || (n =? 133))%N.

Definition lower_char (c : ascii) : ascii :=
  let n := code c in
  if ((65 <=? n) && (n <=? 90)
      || (192 <=? n) && (n <=? 222) && negb (n =? 215))%N
  then ascii_of_N (n + 32) else c.

(** [s.lower()] *)
Fixpoint lower (s : string) : string :=
  match s with
  | EmptyString => EmptyString
  | String c r => String (lower_char c) (lower r)
  end.

(** [s.startswith(p)] *)
Definition startswith (s p : string) : bool := String.prefix p s.

Fixpoint lstrip (s : string) : string :=
  match s with
  | EmptyString => EmptyString
  | String c r => if isspace c then lstrip r else s
  end.

Fixpoint rstrip (s : string) : string :=
  match s with
  | EmptyString => EmptyString
  | String c r =>
      match rstrip r with
      | EmptyString => if isspace c then EmptyString else String c EmptyString
      | r' => String c r'
      end
  end.

(** [s.strip()] *)
Definition strip (s : string) : string := rstrip (lstrip s).

(** [s.split()]: the maximal runs of characters that are not white
    space.  [cur] is the run being read. *)
Fixpoint split_go (cur : string) (s : string) : list string :=
  match s with
  | EmptyString => if bool_decide (cur = "") then [] else [cur]
  | String c r =>
      if isspace c
      then (if bool_decide (cur = "") then split_go "" r
            else cur :: split_go "" r)
      else split_go (cur +:+ String c "") r
  end.

Definition split (s : string) : list string := split_go "" s.

(** [s.split(sep, 1)[0]] for a one-character [sep]: the text before the
    first [sep], or all of [s]. *)
Fixpoint before_first (sep : ascii) (s : string) : string :=
  match s with
  | EmptyString => EmptyString
  | String c r =>
      if bool_decide (c = sep) then EmptyString
      else String c (before_first sep r)
  end.

(** [s.splitlines()].  [after_cr] is set when the previous character
    was a carriage return, so that a line feed after it ends no second
    line; [cur] is the line being read and [pending] tells whether a
    line is open. *)
Fixpoint splitlines_go (after_cr pending : bool) (cur : string)
    (s : string) : list string :=
  match s with
  | EmptyString => if pending then [cur] else []
  | String c r =>
      if islinebreak c then
        if after_cr && bool_decide (code c = 10%N)
        then splitlines_go false false "" r
        else cur :: splitlines_go (bool_decide (code c = 13%N)) false "" r
      else splitlines_go false true (cur +:+ String c "") r
  end.

Definition splitlines (s : string) : list string :=
  splitlines_go false false "" s.

(** [s.replace(old, new)] for a one-character [old]. *)
Fixpoint replace (old : ascii) (new : string) (s : string) : string :=
  match s with
  | EmptyString => EmptyString
  | String c r =>
      if bool_decide (c = old) then new +:+ replace old new r
      else String c (replace old new r)
  end.

(** [len(s)] *)
Definition len (s : string) : Z := Z.of_nat (String.length s).

(** [str(n)] for an integer. *)
Definition str_int (n : Z) : string := pretty n.

Definition hex_digit (n : N) : ascii :=
  if (n <? 10)%N then ascii_of_N (48 + n) else ascii_of_N (87 + n).

Definition isprintable (c : ascii) : bool :=
  let n := code c in
  ((32 <=? n) && (n <? 127) || (161 <=? n) && negb (n =? 173))%N.

Fixpoint contains (c : ascii) (s : string) : bool :=
  match s with
  | EmptyString => false
  | String d r => bool_decide (d = c) || contains c r
  end.

Definition dquote : ascii := ascii_of_N 34.

Fixpoint repr_body (quote : ascii) (s : string) : string :=
  match s with
  | EmptyString => EmptyString
  | String c r =>
      let n := code c in
      (if bool_decide (c = quote) || bool_decide (c = "\"%char)
       then String "\" (String c "")
       else if (n =? 9)%N then "\t"
       else if (n =? 10)%N then "\n"
       else if (n =? 13)%N then "\r"
       else if isprintable c then String c ""
       else String "\" (String "x" (String (hex_digit (n / 16))
              (String (hex_digit (n mod 16)) ""))))
      +:+ repr_body quote r
  end.

(** [repr(s)] *)
Definition repr (s : string) : string :=
  let quote : ascii :=
    if contains "'" s && negb (contains dquote s) then dquote
    else "'"%char in
  String quote (repr_body quote s +:+ String quote "").

(** [repr] of a tuple of strings, which is also its [str]. *)
Definition repr_tuple (t : list string) : string :=
  match t with
  | [] => "()"
  | [x] => "(" +:+ repr x +:+ ",)"
  | x :: r => "(" +:+ repr x +:+ fold_right (fun y acc => ", " +:+ repr y +:+ acc) ")" r
  end.

End Py.

(** ** Module constants *)

Definition MOVE : gmap string Z :=
  {[ "l" := -1; "r" := 1; "*" := 0; "s" := 0; "n" := 0 ]}.

Definition BLANK : string := "_".

Definition DEFAULT_PROGRAM : string :=
  let nl := String (ascii_of_N 10) "" in
  "; Example 1-tape machine: scan right, then halt" +:+ nl +:+
  "; Format (1-tape): state read write move next" +:+ nl +:+
  nl +:+
  "0 0 0 r 0" +:+ nl +:+
  "0 1 1 r 0" +:+ nl +:+
  "0 _ _ * halt" +:+ nl.

(** ** class Instruction *)

Module Instruction.

Record t : Type := mk {
  cur_state : string;
  read : list string;
  write : list string;
  move : list string;
  next_state : string;
  breakpoint : bool;
  line_no : Z
}.

#[export] Instance eq_dec : EqDecision t.
Proof. solve_decision. Defined.

End Instruction.

(** ** class Tape *)

Module Tape.

Record t : Type := mk {
  blank : string;
  cells : gmap Z string;
  head : Z
}.

(** [Tape(blank)] *)
Definition new (blank : string) : t := mk blank ∅ 0.

Definition reset (tp : t) : t := mk (blank tp) ∅ 0.

Definition read (tp : t) : string :=
  default (blank tp) (cells tp !! head tp).

Definition write (tp : t) (sym : string) : t :=
  if bool_decide (sym = blank tp)
  then mk (blank tp) (delete (head tp) (cells tp)) (head tp)
  else mk (blank tp) (<[head tp := sym]> (cells tp)) (head tp).

Definition move (tp : t) (m : string) : t * outcome unit :=
  let m := Py.lower m in
  match MOVE !! m with
  | None =>
      (tp, Raised (ValueError ("Invalid move '" +:+ m +:+ "'. Expected l/r/*")))
  | Some d => (mk (blank tp) (cells tp) (head tp + d), Returned tt)
  end.

(** The loop of [load_leftmost]: [i] is the index [enumerate] gives to
    the first character of [s]. *)
Fixpoint load_loop (blank : string) (i : Z) (s : string)
    (cells : gmap Z string) : gmap Z string :=
  match s with
  | EmptyString => cells
  | String ch r =>
      if bool_decide (String ch "" = blank)
      then load_loop blank (i + 1) r cells
      else load_loop blank (i + 1) r (<[i := String ch ""]> cells)
  end.

Definition load_leftmost (tp : t) (s : string) : t :=
  let s := Py.replace " " (blank tp) s in
  let s := if bool_decide (s = "") then blank tp else s in
  let tp := reset tp in
  mk (blank tp) (load_loop (blank tp) 0 s (cells tp)) 0.

End Tape.

(** ** class Program *)

Module Program.

Record t : Type := mk {
  tapes : Z;
  blank : string;
  _map_1 : gmap string (gmap string (list Instruction.t));
  _map_2 : gmap string (gmap (string * string) (list Instruction.t));
  source_text : string
}.

(** [Program(tapes)] *)
Definition new (tapes : Z) : outcome t :=
  if bool_decide (tapes = 1) || bool_decide (tapes = 2)
  then Returned (mk tapes BLANK ∅ ∅ "")
  else Raised (ValueError "tapes must be 1 or 2").

Definition clear (p : t) : t :=
  mk (tapes p) (blank p) ∅ ∅ (source_text p).

Definition is_halt_state (p : t) (st : string) : bool :=
  Py.startswith (Py.lower (Py.strip st)) "halt".

Definition _strip_comment (line : string) : string :=
  Py.strip (Py.before_first ";" line).

(** [d.setdefault(k, dflt)]: the dictionary afterwards and the value
    returned. *)
Definition setdefault `{Countable K} {V} (d : gmap K V) (k : K) (dflt : V)
    : gmap K V * V :=
  match d !! k with
  | Some v => (d, v)
  | None => (<[k := dflt]> d, dflt)
  end.

(** The inner dictionary is made before the read tuple is indexed, so it
    stays when the index is out of range. *)
Definition add (p : t) (ins : Instruction.t) : t * outcome unit :=
  if bool_decide (tapes p = 1) then
    let '(m1, inner) := setdefault (_map_1 p) (Instruction.cur_state ins) ∅ in
    match Instruction.read ins !! 0%nat with
    | None =>
        (mk (tapes p) (blank p) m1 (_map_2 p) (source_text p),
         Raised (IndexError "tuple index out of range"))
    | Some r0 =>
        let '(inner, l) := setdefault inner r0 [] in
        let inner := <[r0 := l ++ [ins]]> inner in
        (mk (tapes p) (blank p)
            (<[Instruction.cur_state ins := inner]> m1)
            (_map_2 p) (source_text p),
         Returned tt)
    end
  else
    let '(m2, inner) := setdefault (_map_2 p) (Instruction.cur_state ins) ∅ in
    match Instruction.read ins !! 0%nat, Instruction.read ins !! 1%nat with
    | Some r0, Some r1 =>
        let '(inner, l) := setdefault inner (r0, r1) [] in
        let inner := <[(r0, r1) := l ++ [ins]]> inner in
        (mk (tapes p) (blank p) (_map_1 p)
            (<[Instruction.cur_state ins := inner]> m2)
            (source_text p),
         Returned tt)
    | _, _ =>
        (mk (tapes p) (blank p) (_map_1 p) m2 (source_text p),
         Raised (IndexError "tuple index out of range"))
    end.

Definition _get_1 (p : t) (state sym : string) : list Instruction.t :=
  match _map_1 p !! state ≫= (.!! sym) with
  | Some l => l
  | None =>
  match _map_1 p !! state ≫= (.!! "*") with
  | Some l => l
  | None =>
  match _map_1 p !! "*" ≫= (.!! sym) with
  | Some l => l
  | None =>
  match _map_1 p !! "*" ≫= (.!! "*") with
  | Some l => l
  | None => []
  end end end end.

(** The local function of [_get_2]. *)
Definition pick_for_state (p : t) (r1 r2 : string) (st : string)
    : list Instruction.t :=
  match _map_2 p !! st with
  | None => []
  | Some m =>
      if bool_decide (m = ∅) then [] else
      match m !! (r1, r2) with
      | Some l => l
      | None =>
          let tier2 := [] in
          let tier2 :=
            match m !! (r1, "*") with
            | Some l => tier2 ++ l
            | None => tier2
            end in
          let tier2 :=
            match m !! ("*", r2) with
            | Some l => tier2 ++ l
            | None => tier2
            end in
          match tier2 with
          | _ :: _ => tier2
          | [] =>
              match m !! ("*", "*") with
              | Some l => l
              | None => []
              end
          end
      end
  end.

Definition _get_2 (p : t) (state r1 r2 : string) : list Instruction.t :=
  match pick_for_state p r1 r2 state with
  | (_ :: _) as res => res
  | [] => pick_for_state p r1 r2 "*"
  end.

Definition get_next (p : t) (state : string) (reads : list string)
    : outcome (list Instruction.t) :=
  if bool_decide (tapes p = 1) then
    match reads !! 0%nat with
    | Some r0 => Returned (_get_1 p state r0)
    | None => Raised (IndexError "tuple index out of range")
    end
  else
    match reads !! 0%nat, reads !! 1%nat with
    | Some r0, Some r1 => Returned (_get_2 p state r0 r1)
    | _, _ => Raised (IndexError "tuple index out of range")
    end.

(** The pattern [directive_re]: optional white space, one of the
    keywords in any case, optional white space, a colon.  No keyword is
    a prefix of another and none starts with white space or a colon, so
    the greedy match never has to backtrack. *)
Definition directive_keywords : list string :=
  ["tapes"; "blank"; "start"; "initial_tape"; "initial_state"; "nondet";
   "oneway"].

(** The text after [kw] when [s] starts with [kw] in any case. *)
Fixpoint match_nocase (kw s : string) : option string :=
  match kw, s with
  | EmptyString, _ => Some s
  | String k kr, String c r =>
      if bool_decide (Py.lower_char c = k) then match_nocase kr r else None
  | String _ _, EmptyString => None
  end.

Definition directive_re_match (s : string) : bool :=
  let s := Py.lstrip s in
  existsb
    (fun kw =>
       match match_nocase kw s with
       | Some rest => Py.startswith (Py.lstrip rest) ":"
       | None => false
       end)
    directive_keywords.

Definition line_prefix (i : Z) : string :=
  "Line " +:+ Py.str_int (i + 1) +:+ ": ".

Definition unpack_error (expected : Z) (toks : list string) : Exn :=
  ValueError ("not enough values to unpack (expected "
              +:+ Py.str_int expected +:+ ", got "
              +:+ Py.str_int (Z.of_nat (length toks)) +:+ ")").

Definition is_direction (d : string) : bool :=
  bool_decide (Py.lower d ∈ ["l"; "r"; "*"]).

(** The body of the loop of [parse_from_text] from [toks = line.split()]
    to the constructed instruction, for the line of index [i]. *)
Definition parse_rule (tapes : Z) (i : Z) (toks : list string)
    : outcome Instruction.t :=
  let n := Z.of_nat (length toks) in
  if bool_decide (tapes = 1) then
    if negb (bool_decide (n = 5) || bool_decide (n = 6)) then
      Raised (TMParseError
                (line_prefix i +:+ "expected 5 or 6 tokens for 1-tape rule"))
    else
      match take 5 toks with
      | [cur; cs; ns; d; st] =>
          let bp := bool_decide (n = 6) && bool_decide (toks !! 5%nat = Some "!") in
          if negb (bool_decide (Py.len cs = 1))
             || negb (bool_decide (Py.len ns = 1)) then
            Raised (TMParseError
                      (line_prefix i +:+ "symbols must be single characters"))
          else if negb (is_direction d) then
            Raised (TMParseError
                      (line_prefix i +:+ "direction must be l, r, or *"))
          else
            Returned (Instruction.mk cur [cs] [ns] [Py.lower d] st bp i)
      | _ => Raised (unpack_error 5 (take 5 toks))
      end
  else
    if negb (bool_decide (n = 8) || bool_decide (n = 9)) then
      Raised (TMParseError
                (line_prefix i +:+ "expected 8 or 9 tokens for 2-tape rule"))
    else
      match take 8 toks with
      | [cur; r1; r2; w1; w2; d1; d2; st] =>
          let bp := bool_decide (n = 9) && bool_decide (toks !! 8%nat = Some "!") in
          if existsb (fun sym => negb (bool_decide (Py.len sym = 1)))
                     [r1; r2; w1; w2] then
            Raised (TMParseError
                      (line_prefix i +:+ "symbols must be single characters"))
          else if negb (is_direction d1) || negb (is_direction d2) then
            Raised (TMParseError
                      (line_prefix i +:+ "direction must be l, r, or *"))
          else
            Returned (Instruction.mk cur [r1; r2] [w1; w2]
                        [Py.lower d1; Py.lower d2] st bp i)
      | _ => Raised (unpack_error 8 (take 8 toks))
      end.

(** What one line of the text asks for: nothing (a directive, a comment
    or an empty line), or the registration of one instruction. *)
Definition parse_line (tapes : Z) (i : Z) (raw : string)
    : outcome (option Instruction.t) :=
  let raw_stripped := Py.strip raw in
  if directive_re_match raw_stripped then Returned None
  else
    let line := _strip_comment raw in
    if bool_decide (line = "") then Returned None
    else
      match parse_rule tapes i (Py.split line) with
      | Returned ins => Returned (Some ins)
      | Raised e => Raised e
      end.

(** The loop [for i, raw in enumerate(lines)], from index [i] on. *)
Fixpoint parse_lines (p : t) (i : Z) (lines : list string)
    : t * outcome unit :=
  match lines with
  | [] => (p, Returned tt)
  | raw :: rest =>
      match parse_line (tapes p) i raw with
      | Raised e => (p, Raised e)
      | Returned None => parse_lines p (i + 1) rest
      | Returned (Some ins) =>
          match add p ins with
          | (p', Returned _) => parse_lines p' (i + 1) rest
          | (p', Raised e) => (p', Raised e)
          end
      end
  end.

Definition parse_from_text (p : t) (text : string) : t * outcome unit :=
  let p := clear p in
  let p := mk (tapes p) (blank p) (_map_1 p) (_map_2 p) text in
  parse_lines p 0 (Py.splitlines text).

End Program.

(** ** class Machine *)

Module Machine.

Record t : Type := mk {
  prog : option Program.t;
  tapes : list Tape.t;
  state : string;
  steps : Z;
  halted : bool;
  halt_msg : string
}.

(** [Machine()] *)
Definition new : t :=
  mk None [] "0" 0 true "Load or type a program, then Reset.".

Definition configure (m : t) (p : Program.t) : t :=
  mk (Some p) (replicate (Z.to_nat (Program.tapes p)) (Tape.new BLANK))
     (state m) (steps m) (halted m) (halt_msg m).

Definition set_tapes (m : t) (ts : list Tape.t) : t :=
  mk (prog m) ts (state m) (steps m) (halted m) (halt_msg m).

Definition halt (m : t) (msg : string) : t :=
  mk (prog m) (tapes m) (state m) (steps m) true msg.

Definition reset (m : t) (input_w initial_state : string)
    : t * outcome unit :=
  match prog m with
  | None => (halt m "No program loaded.", Returned tt)
  | Some _ =>
      let ts :=
        map (fun tp => Tape.reset (Tape.mk BLANK (Tape.cells tp) (Tape.head tp)))
            (tapes m) in
      match ts with
      | [] => (set_tapes m ts, Raised (IndexError "list index out of range"))
      | t0 :: rest =>
          let ts := Tape.load_leftmost t0 input_w :: rest in
          let ts :=
            if bool_decide (length ts = 2%nat)
            then alter Tape.reset 1%nat ts else ts in
          let st :=
            match Py.split (Py.strip initial_state) with
            | [] => "0"
            | tok :: _ => tok
            end in
          (mk (prog m) ts st 0 false "", Returned tt)
      end
  end.

Definition reads (m : t) : list string := map Tape.read (tapes m).

(** The first loop of [step]: tape [i] and the ones after it are
    written in turn. *)
Fixpoint write_loop (ins : Instruction.t) (reads : list string) (i : nat)
    (ts : list Tape.t) : list Tape.t * outcome unit :=
  match ts with
  | [] => ([], Returned tt)
  | tape :: rest =>
      match Instruction.write ins !! i with
      | None => (ts, Raised (IndexError "tuple index out of range"))
      | Some wi =>
          let w :=
            if bool_decide (wi = "*") then reads !! i else Some wi in
          match w with
          | None => (ts, Raised (IndexError "tuple index out of range"))
          | Some w =>
              let '(rest', r) := write_loop ins reads (S i) rest in
              (Tape.write tape w :: rest', r)
          end
      end
  end.

(** The second loop of [step]. *)
Fixpoint move_loop (ins : Instruction.t) (i : nat) (ts : list Tape.t)
    : list Tape.t * outcome unit :=
  match ts with
  | [] => ([], Returned tt)
  | tape :: rest =>
      match Instruction.move ins !! i with
      | None => (ts, Raised (IndexError "tuple index out of range"))
      | Some mv =>
          match Tape.move tape mv with
          | (tape', Raised e) => (tape' :: rest, Raised e)
          | (tape', Returned _) =>
              let '(rest', r) := move_loop ins (S i) rest in
              (tape' :: rest', r)
          end
      end
  end.

Definition entered_msg (st : string) : string :=
  "Halted (entered state '" +:+ st +:+ "').".

Definition no_rule_msg (st : string) (reads : list string) : string :=
  "Halted (no rule for state '" +:+ st +:+ "' reading "
  +:+ Py.repr_tuple reads +:+ ").".

Definition breakpoint_msg (ins : Instruction.t) : string :=
  "Paused at breakpoint (line "
  +:+ Py.str_int (Instruction.line_no ins + 1) +:+ ").".

Definition step (m : t) : t * outcome (option Instruction.t) :=
  match prog m with
  | None => (m, Returned None)
  | Some p =>
  if halted m then (m, Returned None) else
  if Program.is_halt_state p (state m) then
    (halt m (entered_msg (state m)), Returned None)
  else
  let reads := reads m in
  match Program.get_next p (state m) reads with
  | Raised e => (m, Raised e)
  | Returned [] => (halt m (no_rule_msg (state m) reads), Returned None)
  | Returned (ins :: _) =>
      let new_state :=
        if bool_decide (Instruction.next_state ins = "*") then state m
        else Instruction.next_state ins in
      match write_loop ins reads 0 (tapes m) with
      | (ts, Raised e) => (set_tapes m ts, Raised e)
      | (ts, Returned _) =>
      match move_loop ins 0 ts with
      | (ts, Raised e) => (set_tapes m ts, Raised e)
      | (ts, Returned _) =>
          let m := mk (prog m) ts new_state (steps m + 1) (halted m) (halt_msg m) in
          let m := if Instruction.breakpoint ins
                   then halt m (breakpoint_msg ins) else m in
          let m := if Program.is_halt_state p (state m)
                   then halt m (entered_msg (state m)) else m in
          (m, Returned (Some ins))
      end end
  end end.

(** The caller's loop: at most [n] calls of [step], stopping as soon as
    the machine is halted or a call raises. *)
Fixpoint run_steps (n : nat) (m : t) : t * outcome unit :=
  match n with
  | O => (m, Returned tt)
  | S n' =>
      if halted m then (m, Returned tt)
      else
        match step m with
        | (m', Raised e) => (m', Raised e)
        | (m', Returned _) => run_steps n' m'
        end
  end.

End Machine.

(** ** Notions used to state the properties *)

Definition outcome_map {A B : Type} (f : A → B) (o : outcome A) : outcome B :=
  match o with
  | Returned a => Returned (f a)
  | Raised e => Raised e
  end.

Definition with_breakpoint (b : bool) (ins : Instruction.t) : Instruction.t :=
  Instruction.mk (Instruction.cur_state ins) (Instruction.read ins)
    (Instruction.write ins) (Instruction.move ins)
    (Instruction.next_state ins) b (Instruction.line_no ins).

(** The first list of [tiers] that is not empty. *)
Fixpoint first_nonempty {A : Type} (tiers : list (list A)) : list A :=
  match tiers with
  | [] => []
  | [] :: rest => first_nonempty rest
  | l :: _ => l
  end.

(** The 2-tape lookup in the words of the specification: one pass over
    the rule table of a state, then the two passes in turn. *)
Module Spec.

Definition table (p : Program.t) (st : string)
    : gmap (string * string) (list Instruction.t) :=
  default ∅ (Program._map_2 p !! st).

Definition three_tier_pass (tbl : gmap (string * string) (list Instruction.t))
    (r1 r2 : string) : list Instruction.t :=
  match tbl !! (r1, r2) with
  | Some exact => exact
  | None =>
      first_nonempty
        [ default [] (tbl !! (r1, "*")) ++ default [] (tbl !! ("*", r2));
          default [] (tbl !! ("*", "*")) ]
  end.

Definition lookup_2 (p : Program.t) (state r1 r2 : string)
    : list Instruction.t :=
  first_nonempty
    [ three_tier_pass (table p state) r1 r2;
      three_tier_pass (table p "*") r1 r2 ].

End Spec.

(** The key under which [add] files an instruction: the current state
    with the first read symbol (1 tape) or with the pair of the first
    two (2 tapes); none when the read tuple is too short. *)
Definition key_1 (ins : Instruction.t) : option (string * string) :=
  r0 ← Instruction.read ins !! 0%nat;
  Some (Instruction.cur_state ins, r0).

Definition key_2 (ins : Instruction.t)
    : option (string * (string * string)) :=
  r0 ← Instruction.read ins !! 0%nat;
  r1 ← Instruction.read ins !! 1%nat;
  Some (Instruction.cur_state ins, (r0, r1)).

(** The instructions of [inss] whose key is [k], in the order of
    [inss]. *)
Definition by_key {K : Type} `{EqDecision K}
    (key : Instruction.t → option K) (inss : list Instruction.t) (k : K)
    : list Instruction.t :=
  filter (fun ins => key ins = Some k) inss.

(** [registered p inss]: the store of [p] is an empty store in which the
    instructions [inss] were registered by [add], in this order. *)
Inductive registered : Program.t → list Instruction.t → Prop :=
  | registered_empty p :
      Program._map_1 p = ∅ → Program._map_2 p = ∅ → registered p []
  | registered_add p inss ins p' :
      registered p inss →
      Program.add p ins = (p', Returned tt) →
      registered p' (inss ++ [ins]).

Definition nonempty {A : Type} (l : list A) : option (list A) :=
  match l with
  | [] => None
  | _ :: _ => Some l
  end.

(** What [registered] says of the two dictionaries. *)
Definition grouped (p : Program.t) (inss : list Instruction.t) : Prop :=
  if bool_decide (Program.tapes p = 1) then
    (∀ a b, Program._map_1 p !! a ≫= (.!! b)
            = nonempty (by_key key_1 inss (a, b)))
    ∧ Program._map_2 p = ∅
    ∧ Forall (fun ins => is_Some (key_1 ins)) inss
  else
    (∀ a rr, Program._map_2 p !! a ≫= (.!! rr)
             = nonempty (by_key key_2 inss (a, rr)))
    ∧ Program._map_1 p = ∅
    ∧ Forall (fun ins => is_Some (key_2 ins)) inss.

(** [stored p ins]: [ins] is in one of the lists of the store. *)
Definition stored (p : Program.t) (ins : Instruction.t) : Prop :=
  (∃ st sym l, Program._map_1 p !! st ≫= (.!! sym) = Some l ∧ ins ∈ l)
  ∨ (∃ st rr l, Program._map_2 p !! st ≫= (.!! rr) = Some l ∧ ins ∈ l).

(** The instructions that the lines [lines], the first of index [i],
    ask to register before the first line that is refused, and the
    error of that line if there is one. *)
Fixpoint rule_lines (tapes : Z) (i : Z) (lines : list string)
    : list Instruction.t :=
  match lines with
  | [] => []
  | raw :: rest =>
      match Program.parse_line tapes i raw with
      | Raised _ => []
      | Returned None => rule_lines tapes (i + 1) rest
      | Returned (Some ins) => ins :: rule_lines tapes (i + 1) rest
      end
  end.

Fixpoint first_error (tapes : Z) (i : Z) (lines : list string)
    : outcome unit :=
  match lines with
  | [] => Returned tt
  | raw :: rest =>
      match Program.parse_line tapes i raw with
      | Raised e => Raised e
      | Returned _ => first_error tapes (i + 1) rest
      end
  end.

(** Operations on one tape, and a tape after a sequence of them.  A
    move that raises leaves the tape as it was. *)
Inductive TapeOp : Type :=
  | OpWrite (sym : string)
  | OpMove (m : string)
  | OpLoad (s : string)
  | OpReset.

Definition apply_op (tp : Tape.t) (op : TapeOp) : Tape.t :=
  match op with
  | OpWrite sym => Tape.write tp sym
  | OpMove m => fst (Tape.move tp m)
  | OpLoad s => Tape.load_leftmost tp s
  | OpReset => Tape.reset tp
  end.

Definition run_ops (ops : list TapeOp) (tp : Tape.t) : Tape.t :=
  fold_left apply_op ops tp.

(** The symbol a tape shows at position [i]. *)
Definition symbol_at (tp : Tape.t) (i : Z) : string :=
  default (Tape.blank tp) (Tape.cells tp !! i).

(** The sparseness of a tape: a position is in the cell map exactly when
    the symbol shown there is not the blank. *)
Definition sparse (tp : Tape.t) : Prop :=
  ∀ i : Z, is_Some (Tape.cells tp !! i) ↔ symbol_at tp i ≠ Tape.blank tp.

(** A machine bound to a freshly parsed program, reset on an input word
    and an initial state, after at most [n] calls of [step]; none when a
    call on the way raises. *)
Definition session (tapes : Z) (text input_w initial_state : string)
    (n : nat) : option Machine.t :=
  match Program.new tapes with
  | Raised _ => None
  | Returned p =>
      match Program.parse_from_text p text with
      | (_, Raised _) => None
      | (p, Returned _) =>
          match Machine.reset (Machine.configure Machine.new p)
                  input_w initial_state with
          | (_, Raised _) => None
          | (m, Returned _) =>
              match Machine.run_steps n m with
              | (_, Raised _) => None
              | (m, Returned _) => Some m
              end
          end
      end
  end.

(** An instruction matches a 1-tape lookup of [(st, sym)] when its
    state is [st] or the wildcard and its read symbol is [sym] or the
    wildcard; likewise with two read symbols for a 2-tape lookup. *)
Definition matches_1 (st sym : string) (ins : Instruction.t) : Prop :=
  (Instruction.cur_state ins = st ∨ Instruction.cur_state ins = "*")
  ∧ (Instruction.read ins !! 0%nat = Some sym
     ∨ Instruction.read ins !! 0%nat = Some "*").

Definition matches_2 (st r1 r2 : string) (ins : Instruction.t) : Prop :=
  (Instruction.cur_state ins = st ∨ Instruction.cur_state ins = "*")
  ∧ (Instruction.read ins !! 0%nat = Some r1
     ∨ Instruction.read ins !! 0%nat = Some "*")
  ∧ (Instruction.read ins !! 1%nat = Some r2
     ∨ Instruction.read ins !! 1%nat = Some "*").

(** The shape of the instructions that the parser builds for [k]
    tapes: [k] read symbols, [k] write symbols and [k] moves, the
    symbols of one character each, the moves among l, r and the
    wildcard. *)
Definition rule_shape (k : nat) (ins : Instruction.t) : Prop :=
  length (Instruction.read ins) = k
  ∧ length (Instruction.write ins) = k
  ∧ length (Instruction.move ins) = k
  ∧ Forall (fun sym => String.length sym = 1%nat)
      (Instruction.read ins ++ Instruction.write ins)
  ∧ Forall (fun mv => mv ∈ ["l"; "r"; "*"]) (Instruction.move ins).

(** The number of tapes that [configure] allocates for a program that
    [Program(tapes)] accepts. *)
Definition tape_count (p : Program.t) : nat :=
  if bool_decide (Program.tapes p = 1) then 1%nat else 2%nat.

(** A machine is ready to run the program [p] when [p] is bound to it,
    it has the tapes that [p] needs, and every instruction in the store
    of [p] has the shape of a parsed rule. *)
Definition engine_ready (m : Machine.t) (p : Program.t) : Prop :=
  Machine.prog m = Some p
  ∧ length (Machine.tapes m) = tape_count p
  ∧ ∀ ins, stored p ins → rule_shape (tape_count p) ins.

(** What one call of [step] may do to a tape: the blank is kept, only
    the cell under the head can change, and the head moves by one cell
    at most. *)
Definition local_change (tp tp' : Tape.t) : Prop :=
  Tape.blank tp' = Tape.blank tp
  ∧ (∀ i : Z, i ≠ Tape.head tp → symbol_at tp' i = symbol_at tp i)
  ∧ -1 ≤ Tape.head tp' - Tape.head tp ≤ 1.

(** ** Example inputs *)

Definition newline : string := String (ascii_of_N 10) "".

(** A running machine with a rule store that has no rule. *)
Definition stuck_machine : Machine.t :=
  Machine.mk (Some (Program.mk 1 BLANK ∅ ∅ ""))
    [Tape.mk BLANK {[ 0 := "1" ]} 0] "q" 7 false "".

(** A rule with the breakpoint marker that enters a halting state, and
    a machine reset on it with an empty input. *)
Definition breakpoint_halt_text : string := "0 _ _ * halt !".

Definition breakpoint_halt_program : Program.t :=
  fst (Program.parse_from_text (Program.mk 1 BLANK ∅ ∅ "")
         breakpoint_halt_text).

Definition breakpoint_halt_machine : Machine.t :=
  fst (Machine.reset (Machine.configure Machine.new breakpoint_halt_program)
         "" "0").

(** The scenario of the specification: the three rules of
    [DEFAULT_PROGRAM] on the input 101 from the state 0. *)
Definition scenario (n : nat) : option Machine.t :=
  session 1 DEFAULT_PROGRAM "101" "0" n.

(** A fresh 1-tape program, as [Program(1)] makes it. *)
Definition empty_program : Program.t := Program.mk 1 BLANK ∅ ∅ "".

(** Rules for the four tiers of one lookup, filed from the last tier to
    the first, with two rules under the exact key. *)
Definition tier_text : string :=
  "* * a r s1" +:+ newline +:+
  "* 1 b r s2" +:+ newline +:+
  "q * c r s3" +:+ newline +:+
  "q 1 d r s4" +:+ newline +:+
  "q 1 e r s5".

Definition tier_program : Program.t :=
  fst (Program.parse_from_text empty_program tier_text).

Definition tier_machine : Machine.t :=
  fst (Machine.reset (Machine.configure Machine.new tier_program) "1" "q").

(** A text whose second line is malformed. *)
Definition partial_text : string :=
  "0 0 0 r 0" +:+ newline +:+
  "0 1 1" +:+ newline +:+
  "0 _ _ * halt".

(** A fresh 2-tape program, and rules for the middle tier of a 2-tape
    lookup and for the wildcard state. *)
Definition empty_program_2 : Program.t := Program.mk 2 BLANK ∅ ∅ "".

Definition pair_text : string :=
  "q * b x y r l s2" +:+ newline +:+
  "q a * x y l r s1" +:+ newline +:+
  "* * * x y * * s3".

Definition pair_program : Program.t :=
  fst (Program.parse_from_text empty_program_2 pair_text).

(** A halted 2-tape machine with used tapes. *)
Definition used_machine : Machine.t :=
  Machine.mk (Some pair_program)
    [Tape.mk "x" {[ 3 := "a" ]} 3; Tape.mk "y" {[ 5 := "b" ]} (-2)]
    "old" 9 true "why".

(** * Properties *)

#[local] Arguments Program.is_halt_state : simpl never.

(** ** The engine *)

(** C10.  When [step] returns nothing, the tapes (contents and head
    positions), the current state, the step counter and the bound
    program are as before the call; only the halted flag and the halt
    reason can differ. *)
Theorem step_returns_nothing_frame (m m' : Machine.t) :
  Machine.step m = (m', Returned None) →
  Machine.tapes m' = Machine.tapes m
  ∧ Machine.state m' = Machine.state m
  ∧ Machine.steps m' = Machine.steps m
  ∧ Machine.prog m' = Machine.prog m.
Proof.
  unfold Machine.step. intros H.
  destruct (Machine.prog m) as [p|] eqn:Hp; [|by simplify_eq].
  destruct (Machine.halted m); [by simplify_eq|].
  destruct (Program.is_halt_state p (Machine.state m)); [by simplify_eq|].
  destruct (Program.get_next p (Machine.state m) (Machine.reads m))
    as [[|ins choices]|e]; [by simplify_eq| |by simplify_eq].
  destruct (Machine.write_loop _ _ _ _) as [ts [[]|e]]; [|by simplify_eq].
  destruct (Machine.move_loop _ _ _) as [ts' [[]|e]]; by simplify_eq.
Qed.

Lemma step_returns_nothing_frame_witness :
  let m' := fst (Machine.step stuck_machine) in
  Machine.halted m' = true
  ∧ Machine.tapes m' = Machine.tapes stuck_machine
  ∧ Machine.state m' = "q"
  ∧ Machine.steps m' = 7.
Proof.
  pose proof (step_returns_nothing_frame stuck_machine
                (fst (Machine.step stuck_machine))) as H.
  destruct H as (Ht & Hs & Hn & _); [vm_compute; reflexivity|].
  split; [vm_compute; reflexivity|].
  split; [exact Ht|]. split; [exact Hs|exact Hn].
Defined.

(** C1, as the code has it.  When [step] applies an instruction whose
    breakpoint flag is set, the machine is halted afterwards; the reason
    is the entered-halt-state one when the new state is a halting label,
    since the halt-state check comes last and writes its message over
    the breakpoint one, and the breakpoint one (with the line number
    [line_no + 1]) only when the new state is not a halting label. *)
Theorem step_breakpoint_reason (m m' : Machine.t) (p : Program.t)
    (ins : Instruction.t) :
  Machine.prog m = Some p →
  Machine.step m = (m', Returned (Some ins)) →
  Instruction.breakpoint ins = true →
  Machine.halted m' = true
  ∧ Machine.halt_msg m' =
      if Program.is_halt_state p (Machine.state m')
      then "Halted (entered state '" +:+ Machine.state m' +:+ "')."
      else "Paused at breakpoint (line "
           +:+ Py.str_int (Instruction.line_no ins + 1) +:+ ").".
Proof.
  unfold Machine.step. intros Hp H Hbp. rewrite Hp in H.
  destruct (Machine.halted m); [by simplify_eq|].
  destruct (Program.is_halt_state p (Machine.state m)); [by simplify_eq|].
  destruct (Program.get_next p (Machine.state m) (Machine.reads m))
    as [[|ins' choices]|e]; [by simplify_eq| |by simplify_eq].
  destruct (Machine.write_loop _ _ _ _) as [ts [[]|e]]; [|by simplify_eq].
  destruct (Machine.move_loop _ _ _) as [ts' [[]|e]]; [|by simplify_eq].
  injection H as <- ->. rewrite Hbp. unfold Machine.halt. simpl.
  destruct (Program.is_halt_state p _) eqn:E; simpl; rewrite E; done.
Qed.

Lemma step_breakpoint_reason_witness :
  let m' := fst (Machine.step breakpoint_halt_machine) in
  Machine.halted m' = true
  ∧ Machine.halt_msg m' = "Halted (entered state 'halt').".
Proof.
  apply (step_breakpoint_reason breakpoint_halt_machine
           (fst (Machine.step breakpoint_halt_machine))
           breakpoint_halt_program
           (Instruction.mk "0" ["_"] ["_"] ["*"] "halt" true 0)).
  - vm_compute. reflexivity.
  - vm_compute. reflexivity.
  - reflexivity.
Defined.

(** C1, as the specification states it, fails: the step of
    [breakpoint_halt_machine] applies a breakpoint rule and enters a
    halting state, and the reason afterwards is not the breakpoint
    one. *)
Lemma breakpoint_reason_not_kept :
  ∃ m' ins,
    Machine.step breakpoint_halt_machine = (m', Returned (Some ins))
    ∧ Instruction.breakpoint ins = true
    ∧ Program.is_halt_state breakpoint_halt_program (Machine.state m') = true
    ∧ Machine.halted m' = true
    ∧ Machine.halt_msg m' = "Halted (entered state 'halt')."
    ∧ Machine.halt_msg m' ≠ "Paused at breakpoint (line 1).".
Proof.
  eexists _, _. split; [vm_compute; reflexivity|].
  split; [reflexivity|]. split; [vm_compute; reflexivity|].
  split; [reflexivity|]. split; [reflexivity|]. cbn. discriminate.
Qed.

(** C5, as the code has it.  The scenario halts at the fourth call of
    [step], not the third: three calls move the head over 1, 0, 1, and
    the fourth reads the blank, applies the rule into the state halt and
    sets the entered-halt-state reason.  Then the step counter is 4, the
    tape still holds 1, 0, 1 at 0, 1, 2 and the head is at 3.  After
    fewer calls the machine is still running. *)
Theorem scenario_halts_at_fourth_step :
  (∃ m, scenario 4 = Some m
        ∧ Machine.halted m = true
        ∧ Machine.halt_msg m = "Halted (entered state 'halt')."
        ∧ Machine.state m = "halt"
        ∧ Machine.steps m = 4
        ∧ Machine.tapes m
          = [Tape.mk "_" {[ 0 := "1"; 1 := "0"; 2 := "1" ]} 3])
  ∧ (∀ n, (n < 4)%nat →
       ∃ m, scenario n = Some m
            ∧ Machine.halted m = false
            ∧ Machine.steps m = Z.of_nat n).
Proof.
  split.
  - eexists. split; [vm_compute; reflexivity|]. repeat split.
  - intros n Hn.
    destruct n as [|[|[|[|n]]]]; [| | | |lia];
      (eexists; split; [vm_compute; reflexivity|]; split; reflexivity).
Qed.

(** C5, as the specification states it, fails: after three calls of
    [step] the machine of the scenario is not halted and has no halt
    reason. *)
Lemma scenario_running_after_three_steps :
  ∃ m, scenario 3 = Some m
       ∧ Machine.steps m = 3
       ∧ Machine.halted m = false
       ∧ Machine.halt_msg m ≠ "Halted (entered state 'halt')."
       ∧ Machine.state m = "0"
       ∧ map Tape.head (Machine.tapes m) = [3].
Proof.
  eexists. split; [vm_compute; reflexivity|].
  repeat split. cbn. discriminate.
Qed.

(** ** The rule store *)

Lemma pick_for_state_pass (p : Program.t) (r1 r2 st : string) :
  Program.pick_for_state p r1 r2 st
  = Spec.three_tier_pass (Spec.table p st) r1 r2.
Proof.
  unfold Program.pick_for_state, Spec.three_tier_pass, Spec.table.
  destruct (Program._map_2 p !! st) as [m|]; simpl; [|done].
  case_bool_decide as Hm; [by subst|].
  destruct (m !! (r1, r2)); [done|].
  assert (Hany : match m !! ("*", "*") with Some l => l | None => [] end
                 = match default [] (m !! ("*", "*")) with
                   | [] => []
                   | _ :: _ => default [] (m !! ("*", "*"))
                   end)
    by (by destruct (m !! ("*", "*")) as [[|]|]).
  destruct (m !! (r1, "*")) as [l1|], (m !! ("*", r2)) as [l2|]; simpl;
    rewrite ?app_nil_r.
  - by destruct (l1 ++ l2).
  - by destruct l1.
  - by destruct l2.
  - done.
Qed.

(** C2.  The 2-tape lookup of the code is the lookup the specification
    describes: one pass over the table of the live state (the exact key
    when it is present; otherwise the entries of (r1, wildcard) followed
    by those of (wildcard, r2) when there are any; otherwise those of
    (wildcard, wildcard)), and the same pass over the table of the
    wildcard state only when the first pass gives nothing. *)
Theorem get_2_is_two_pass_lookup (p : Program.t) (state r1 r2 : string) :
  Program._get_2 p state r1 r2 = Spec.lookup_2 p state r1 r2.
Proof.
  unfold Program._get_2, Spec.lookup_2. rewrite !pick_for_state_pass.
  generalize (Spec.three_tier_pass (Spec.table p state) r1 r2).
  generalize (Spec.three_tier_pass (Spec.table p "*") r1 r2).
  intros other own. destruct own, other; reflexivity.
Qed.

(** ** The parser *)

(** X22.  What the parser does with the number of tokens.  With [k]
    = 5 for a 1-tape program and 8 for a 2-tape one: a rule line whose
    number of tokens is neither [k] nor [k + 1] is refused with the
    token-count error; a line of [k + 1] tokens is read exactly as its
    first [k] tokens are, whatever the last token is, and the last
    token only decides the breakpoint flag, set when it is the
    marker. *)
Theorem parse_rule_token_count (tapes i : Z) (toks : list string) :
  let k := if bool_decide (tapes = 1) then 5%nat else 8%nat in
  (length toks ≠ k → length toks ≠ S k →
   Program.parse_rule tapes i toks
   = Raised (TMParseError
               (Program.line_prefix i +:+
                (if bool_decide (tapes = 1)
                 then "expected 5 or 6 tokens for 1-tape rule"
                 else "expected 8 or 9 tokens for 2-tape rule"))))
  ∧ (length toks = S k →
     Program.parse_rule tapes i toks
     = outcome_map (with_breakpoint (bool_decide (toks !! k = Some "!")))
         (Program.parse_rule tapes i (take k toks))).
Proof.
  unfold Program.parse_rule. case_bool_decide as Ht; simpl; split.
  - intros H5 H6.
    rewrite (bool_decide_eq_false_2 (Z.of_nat (length toks) = 5)) by lia.
    by rewrite (bool_decide_eq_false_2 (Z.of_nat (length toks) = 6)) by lia.
  - intros Hlen.
    destruct toks as [|cur [|cs [|ns [|d [|st [|x [|]]]]]]]; try done.
    simpl. repeat case_bool_decide; simpl; try done.
    all: destruct (Program.is_direction d); simpl; try done.
    all: by rewrite ?bool_decide_eq_true_2, ?bool_decide_eq_false_2 by congruence.
  - intros H8 H9.
    rewrite (bool_decide_eq_false_2 (Z.of_nat (length toks) = 8)) by lia.
    by rewrite (bool_decide_eq_false_2 (Z.of_nat (length toks) = 9)) by lia.
  - intros Hlen.
    destruct toks as [|cur [|r1 [|r2 [|w1 [|w2 [|d1 [|d2 [|st [|x [|]]]]]]]]]];
      try done.
    simpl.
    destruct (bool_decide (Py.len r1 = 1)), (bool_decide (Py.len r2 = 1)),
      (bool_decide (Py.len w1 = 1)), (bool_decide (Py.len w2 = 1));
      simpl; try done.
    destruct (Program.is_direction d1), (Program.is_direction d2);
      simpl; done.
Qed.

Lemma parse_rule_token_count_witness :
  Program.parse_rule 1 0 ["0"; "0"; "0"; "r"; "0"; "x"]
  = Returned (Instruction.mk "0" ["0"] ["0"] ["r"] "0" false 0)
  ∧ Program.parse_rule 1 0 ["0"; "0"]
    = Raised (TMParseError "Line 1: expected 5 or 6 tokens for 1-tape rule").
Proof.
  split.
  - exact (proj2 (parse_rule_token_count 1 0 ["0"; "0"; "0"; "r"; "0"; "x"])
             eq_refl).
  - apply (proj1 (parse_rule_token_count 1 0 ["0"; "0"])); simpl; lia.
Defined.

(** C6.  The parser misses the case that the claim and the comments
    of the parser on the shape of a rule describe: a 1-tape line of six
    tokens and a 2-tape line of nine tokens whose last token is not the
    breakpoint marker are not refused; each is accepted and registers
    a rule with no breakpoint. *)
Lemma extra_token_accepted :
  (∃ p, Program.parse_from_text (Program.mk 1 BLANK ∅ ∅ "") "0 0 0 r 0 x"
        = (p, Returned tt)
        ∧ Program._get_1 p "0" "0"
          = [Instruction.mk "0" ["0"] ["0"] ["r"] "0" false 0])
  ∧ (∃ p, Program.parse_from_text (Program.mk 2 BLANK ∅ ∅ "")
            "0 a b a b r l 1 x"
          = (p, Returned tt)
          ∧ Program._get_2 p "0" "a" "b"
            = [Instruction.mk "0" ["a"; "b"] ["a"; "b"] ["r"; "l"] "1" false 0]).
Proof.
  split; (eexists; split; [vm_compute; reflexivity|reflexivity]).
Qed.

(** ** The tape *)

Lemma sparse_no_blank_stored (tp : Tape.t) :
  sparse tp ↔ ∀ i : Z, Tape.cells tp !! i ≠ Some (Tape.blank tp).
Proof.
  unfold sparse, symbol_at. split.
  - intros H i Hi. specialize (H i). rewrite Hi in H. simpl in H.
    destruct H as [H _]. by apply H.
  - intros H i. specialize (H i).
    destruct (Tape.cells tp !! i) as [s|]; simpl.
    + split; [intros _; congruence|eauto].
    + split; [by intros [? ?]|done].
Qed.

Lemma load_loop_lookup (blank s : string) :
  ∀ (i : Z) (cells : gmap Z string) (j : Z),
    Tape.load_loop blank i s cells !! j
    = match (if decide (i ≤ j) then String.get (Z.to_nat (j - i)) s
             else None) with
      | Some c =>
          if bool_decide (String c "" = blank) then cells !! j
          else Some (String c "")
      | None => cells !! j
      end.
Proof.
  induction s as [|ch r IH]; intros i cells j; simpl.
  - by case_decide.
  - assert (Hnext : ∀ cells' : gmap Z string,
              Tape.load_loop blank (i + 1) r cells' !! j
              = if decide (i = j)
                then cells' !! j
                else match (if decide (i ≤ j)
                            then String.get (Z.to_nat (j - i)) (String ch r)
                            else None) with
                     | Some c =>
                         if bool_decide (String c "" = blank) then cells' !! j
                         else Some (String c "")
                     | None => cells' !! j
                     end).
    { intros cells'. rewrite IH.
      destruct (decide (i = j)) as [->|Hij].
      - rewrite decide_False by lia. done.
      - destruct (decide (i ≤ j)) as [Hle|Hle].
        + rewrite decide_True by lia.
          replace (Z.to_nat (j - i)) with (S (Z.to_nat (j - (i + 1)))) by lia.
          done.
        + rewrite decide_False by lia. done. }
    case_bool_decide as Hb; rewrite Hnext.
    + destruct (decide (i = j)) as [->|Hij]; [|done].
      rewrite decide_True by lia. rewrite Z.sub_diag. simpl.
      by rewrite bool_decide_eq_true_2.
    + destruct (decide (i = j)) as [->|Hij].
      * rewrite decide_True by lia. rewrite Z.sub_diag. simpl.
        rewrite bool_decide_eq_false_2 by done. by rewrite lookup_insert_eq.
      * rewrite lookup_insert_ne by done. done.
Qed.

Lemma load_leftmost_no_blank (tp : Tape.t) (s : string) (i : Z) :
  Tape.cells (Tape.load_leftmost tp s) !! i
  ≠ Some (Tape.blank (Tape.load_leftmost tp s)).
Proof.
  unfold Tape.load_leftmost. simpl. rewrite load_loop_lookup.
  destruct (if decide (0 ≤ i) then _ else None) as [c|];
    [|by rewrite lookup_empty].
  case_bool_decide; [by rewrite lookup_empty|congruence].
Qed.

Lemma apply_op_no_blank (tp : Tape.t) (op : TapeOp) :
  (∀ i : Z, Tape.cells tp !! i ≠ Some (Tape.blank tp)) →
  ∀ i : Z, Tape.cells (apply_op tp op) !! i
           ≠ Some (Tape.blank (apply_op tp op)).
Proof.
  intros H i. destruct op as [sym|m|s|]; simpl.
  - unfold Tape.write. case_bool_decide; simpl.
    + destruct (decide (Tape.head tp = i)) as [->|Hne].
      * by rewrite lookup_delete_eq.
      * by rewrite lookup_delete_ne.
    + destruct (decide (Tape.head tp = i)) as [->|Hne].
      * rewrite lookup_insert_eq. congruence.
      * by rewrite lookup_insert_ne.
  - unfold Tape.move. destruct (MOVE !! Py.lower m); simpl; apply H.
  - apply load_leftmost_no_blank.
  - by rewrite lookup_empty.
Qed.

(** C7.  A tape made with any blank and driven by any sequence of
    writes, moves, loads and resets is sparse: a position is in its cell
    map exactly when the symbol there is not the blank.  Writing the
    blank at the head of such a tape leaves no entry at the head, and
    the next read gives the blank. *)
Theorem tape_sparseness (b : string) (ops : list TapeOp) :
  let tp := run_ops ops (Tape.new b) in
  sparse tp
  ∧ Tape.cells (Tape.write tp (Tape.blank tp)) !! Tape.head tp = None
  ∧ Tape.head (Tape.write tp (Tape.blank tp)) = Tape.head tp
  ∧ Tape.read (Tape.write tp (Tape.blank tp)) = Tape.blank tp.
Proof.
  simpl. split.
  - apply sparse_no_blank_stored. unfold run_ops.
    assert (Hnew : ∀ i : Z, Tape.cells (Tape.new b) !! i
                            ≠ Some (Tape.blank (Tape.new b)))
      by (intros i; simpl; by rewrite lookup_empty).
    revert Hnew. generalize (Tape.new b).
    induction ops as [|op ops IH]; intros tp Htp; simpl; [done|].
    apply IH. by apply apply_op_no_blank.
  - generalize (run_ops ops (Tape.new b)). intros tp.
    unfold Tape.read, Tape.write. rewrite bool_decide_eq_true_2 by done.
    simpl. by rewrite lookup_delete_eq.
Qed.

Lemma replace_space_get (b : ascii) (w : string) :
  ∀ n : nat,
    String.get n (Py.replace " " (String b "") w)
    = (fun c => if bool_decide (c = " "%char) then b else c)
        <$> String.get n w.
Proof.
  induction w as [|c r IH]; intros n; simpl; [done|].
  case_bool_decide as Hc; simpl; destruct n as [|n]; simpl.
  - by rewrite bool_decide_eq_true_2.
  - apply IH.
  - by rewrite bool_decide_eq_false_2.
  - apply IH.
Qed.

(** C8.  On a tape whose blank is the one character [b], loading a
    word gives a tape with the head at 0 and the same blank, where the
    position [i] holds the character of index [i] of the word when
    there is one and it is neither a space nor the blank, and holds
    nothing otherwise: not before 0, not from the length of the word
    on, whatever the tape held before.  *)
Theorem load_leftmost_cells (tp : Tape.t) (b : ascii) (w : string) :
  Tape.blank tp = String b "" →
  let tp' := Tape.load_leftmost tp w in
  Tape.head tp' = 0
  ∧ Tape.blank tp' = Tape.blank tp
  ∧ ∀ i : Z,
      Tape.cells tp' !! i
      = if decide (0 ≤ i) then
          match String.get (Z.to_nat i) w with
          | Some c =>
              if bool_decide (c = " "%char ∨ c = b) then None
              else Some (String c "")
          | None => None
          end
        else None.
Proof.
  intros Hb. simpl. split; [done|]. split; [done|]. intros i.
  unfold Tape.load_leftmost. simpl. rewrite load_loop_lookup, Z.sub_0_r.
  destruct (decide (0 ≤ i)) as [Hi|Hi]; [|by rewrite lookup_empty].
  rewrite Hb. case_bool_decide as Hempty.
  - assert (Hw : w = "").
    { destruct w as [|c r]; [done|]. simpl in Hempty.
      by case_bool_decide. }
    subst w. simpl. destruct (Z.to_nat i); simpl; [|by rewrite lookup_empty].
    by rewrite bool_decide_eq_true_2.
  - rewrite replace_space_get.
    destruct (String.get (Z.to_nat i) w) as [c|]; simpl;
      [|by rewrite lookup_empty].
    rewrite lookup_empty.
    destruct (decide (c = " "%char)) as [->|Hs].
    + by rewrite !bool_decide_eq_true_2 by auto.
    + rewrite (bool_decide_eq_false_2 (c = " "%char)) by done.
      destruct (decide (c = b)) as [->|Hcb].
      * by rewrite !bool_decide_eq_true_2 by auto.
      * rewrite !bool_decide_eq_false_2; [done|tauto|congruence].
Qed.

Example load_101 :
  let tp := Tape.load_leftmost (Tape.new BLANK) "101" in
  Tape.head tp = 0
  ∧ map (symbol_at tp) [-1; 0; 1; 2; 3] = ["_"; "1"; "0"; "1"; "_"]
  ∧ Tape.cells (Tape.load_leftmost (Tape.new BLANK) "") = ∅.
Proof. repeat split. Qed.

Lemma load_leftmost_cells_witness :
  let tp := Tape.load_leftmost (Tape.mk BLANK {[ 7 := "x" ]} 5) "1 1" in
  Tape.head tp = 0
  ∧ Tape.cells tp !! 0 = Some "1"
  ∧ Tape.cells tp !! 1 = None
  ∧ Tape.cells tp !! 2 = Some "1"
  ∧ Tape.cells tp !! 7 = None.
Proof.
  destruct (load_leftmost_cells (Tape.mk BLANK {[ 7 := "x" ]} 5)
              "_"%char "1 1" eq_refl) as (Hh & _ & Hc).
  split; [exact Hh|]. rewrite !Hc. repeat split.
Defined.

(** ** The contents of the rule store *)

Section nested_maps.
Context {K : Type} `{Countable K} {V : Type}.

Lemma setdefault_lookup (d : gmap K V) (k k' : K) (dflt : V) :
  (Program.setdefault d k dflt).1 !! k'
  = if decide (k = k') then Some (default dflt (d !! k)) else d !! k'.
Proof.
  unfold Program.setdefault.
  destruct (d !! k) as [v|] eqn:Hk; simpl; case_decide; subst; try done.
  - by rewrite lookup_insert_eq.
  - by rewrite lookup_insert_ne.
Qed.

Lemma setdefault_value (d : gmap K V) (k : K) (dflt : V) :
  (Program.setdefault d k dflt).2 = default dflt (d !! k).
Proof. unfold Program.setdefault. by destruct (d !! k). Qed.

End nested_maps.

(** The nested update of [add]: the list under [(a, k)] gets [x] at its
    end, and no other list changes. *)
Lemma nested_append_lookup {K : Type} `{Countable K} {I : Type}
    (m : gmap string (gmap K (list I))) (a a' : string) (k k' : K) (x : I) :
  (let '(m1, inner) := Program.setdefault m a ∅ in
   let '(inner, l) := Program.setdefault inner k [] in
   <[a := <[k := l ++ [x]]> inner]> m1) !! a' ≫= (.!! k')
  = if decide (a = a' ∧ k = k')
    then Some (default [] (m !! a ≫= (.!! k)) ++ [x])
    else m !! a' ≫= (.!! k').
Proof.
  destruct (Program.setdefault m a ∅) as [m1 inner] eqn:H1.
  destruct (Program.setdefault inner k []) as [inner' l] eqn:H2.
  pose proof (setdefault_lookup m a a' ∅) as Hm1.
  pose proof (setdefault_value m a ∅) as Hin.
  pose proof (setdefault_lookup inner k k' []) as Hin'.
  pose proof (setdefault_value inner k []) as Hl.
  rewrite H1 in Hm1, Hin. rewrite H2 in Hin', Hl. simpl in *.
  destruct (decide (a = a')) as [<-|Ha].
  - rewrite lookup_insert_eq. simpl.
    assert (Hold : ∀ j, inner !! j = m !! a ≫= (.!! j)).
    { intros j. rewrite Hin. by destruct (m !! a). }
    destruct (decide (k = k')) as [<-|Hk].
    + rewrite lookup_insert_eq, decide_True by done.
      by rewrite Hl, Hold.
    + rewrite lookup_insert_ne by done.
      rewrite decide_False by tauto. by rewrite Hin', Hold.
  - rewrite lookup_insert_ne by done. rewrite Hm1.
    by rewrite decide_False by tauto.
Qed.

Lemma by_key_snoc {K : Type} `{EqDecision K}
    (key : Instruction.t → option K) (inss : list Instruction.t)
    (ins : Instruction.t) (k : K) :
  by_key key (inss ++ [ins]) k
  = by_key key inss k ++ (if decide (key ins = Some k) then [ins] else []).
Proof.
  unfold by_key. rewrite filter_app. reflexivity.
Qed.

Lemma nonempty_snoc {A : Type} (l : list A) (x : A) :
  Some (default [] (nonempty l) ++ [x]) = nonempty (l ++ [x]).
Proof. by destruct l. Qed.

Lemma add_tapes (p p' : Program.t) (ins : Instruction.t) (r : outcome unit) :
  Program.add p ins = (p', r) → Program.tapes p' = Program.tapes p.
Proof.
  unfold Program.add. intros Hadd.
  case_bool_decide.
  - destruct (Program.setdefault (Program._map_1 p) _ ∅) as [m1 inner].
    destruct (Instruction.read ins !! 0%nat) as [r0|]; [|by simplify_eq].
    destruct (Program.setdefault inner r0 []). by simplify_eq.
  - destruct (Program.setdefault (Program._map_2 p) _ ∅) as [m2 inner].
    destruct (Instruction.read ins !! 0%nat) as [r0|]; [|by simplify_eq].
    destruct (Instruction.read ins !! 1%nat) as [r1|]; [|by simplify_eq].
    destruct (Program.setdefault inner (r0, r1) []). by simplify_eq.
Qed.

Lemma add_grouped (p p' : Program.t) (inss : list Instruction.t)
    (ins : Instruction.t) :
  grouped p inss →
  Program.add p ins = (p', Returned tt) →
  grouped p' (inss ++ [ins]).
Proof.
  intros Hg Hadd. pose proof (add_tapes _ _ _ _ Hadd) as Ht.
  unfold grouped in *. rewrite Ht. unfold Program.add in Hadd.
  destruct (bool_decide (Program.tapes p = 1)).
  - destruct Hg as (Hlook & Hother & Hkeys).
    destruct (Instruction.read ins !! 0%nat) as [r0|] eqn:Hr0.
    2:{ destruct (Program.setdefault (Program._map_1 p) _ ∅).
        by simplify_eq. }
    pose proof (nested_append_lookup (Program._map_1 p)
                  (Instruction.cur_state ins)) as Hnest.
    destruct (Program.setdefault (Program._map_1 p) _ ∅) as [m1 inner].
    specialize (fun a' => Hnest a' r0).
    destruct (Program.setdefault inner r0 []) as [inner' l].
    injection Hadd as <-. simpl.
    assert (Hkey : key_1 ins = Some (Instruction.cur_state ins, r0))
      by (unfold key_1; by rewrite Hr0).
    split; [|split; [done|]].
    + intros a b. rewrite Hnest, by_key_snoc, Hkey.
      destruct (decide (Instruction.cur_state ins = a ∧ r0 = b))
        as [[<- <-]|Hne].
      * rewrite decide_True by done. by rewrite Hlook, nonempty_snoc.
      * rewrite decide_False by (intros [= ? ?]; tauto).
        by rewrite app_nil_r.
    + apply Forall_app. split; [done|]. apply Forall_singleton. by rewrite Hkey.
  - destruct Hg as (Hlook & Hother & Hkeys).
    destruct (Instruction.read ins !! 0%nat) as [r0|] eqn:Hr0.
    2:{ destruct (Program.setdefault (Program._map_2 p) _ ∅).
        by simplify_eq. }
    destruct (Instruction.read ins !! 1%nat) as [r1|] eqn:Hr1.
    2:{ destruct (Program.setdefault (Program._map_2 p) _ ∅).
        by simplify_eq. }
    pose proof (nested_append_lookup (Program._map_2 p)
                  (Instruction.cur_state ins)) as Hnest.
    destruct (Program.setdefault (Program._map_2 p) _ ∅) as [m2 inner].
    specialize (fun a' => Hnest a' (r0, r1)).
    destruct (Program.setdefault inner (r0, r1) []) as [inner' l].
    injection Hadd as <-. simpl.
    assert (Hkey : key_2 ins = Some (Instruction.cur_state ins, (r0, r1)))
      by (unfold key_2; by rewrite Hr0, Hr1).
    split; [|split; [done|]].
    + intros a b. rewrite Hnest, by_key_snoc, Hkey.
      destruct (decide (Instruction.cur_state ins = a ∧ (r0, r1) = b))
        as [[<- <-]|Hne].
      * rewrite decide_True by done. by rewrite Hlook, nonempty_snoc.
      * rewrite decide_False by (intros [= ? ?]; subst; tauto).
        by rewrite app_nil_r.
    + apply Forall_app. split; [done|]. apply Forall_singleton. by rewrite Hkey.
Qed.

Lemma registered_grouped (p : Program.t) (inss : list Instruction.t) :
  registered p inss → grouped p inss.
Proof.
  induction 1 as [p H1 H2|p inss ins p' _ IH Hadd].
  - unfold grouped. rewrite H1, H2.
    case_bool_decide; (split; [intros a b; by rewrite lookup_empty|done]).
  - by eapply add_grouped.
Qed.

Lemma registered_stored (p : Program.t) (inss : list Instruction.t)
    (x : Instruction.t) :
  registered p inss → stored p x ↔ x ∈ inss.
Proof.
  intros Hreg. apply registered_grouped in Hreg.
  unfold grouped in Hreg. unfold stored.
  assert (Hne : ∀ {K : Type} `{EqDecision K}
                  (key : Instruction.t → option K) (k : K)
                  (l : list Instruction.t),
            nonempty (by_key key inss k) = Some l → l = by_key key inss k).
  { intros K ? key k l. destruct (by_key key inss k); simpl; congruence. }
  destruct (bool_decide (Program.tapes p = 1));
    destruct Hreg as (Hlook & Hother & Hkeys); rewrite Hother; split.
  - intros [(st & sym & l & Hl & Hx)|(st & rr & l & Hl & Hx)].
    + rewrite Hlook in Hl. apply Hne in Hl. subst l.
      unfold by_key in Hx. by apply list_elem_of_filter in Hx as [_ ?].
    + by rewrite lookup_empty in Hl.
  - intros Hx. left.
    rewrite Forall_forall in Hkeys. destruct (Hkeys x Hx) as [[st sym] Hk].
    exists st, sym, (by_key key_1 inss (st, sym)).
    assert (Hin : x ∈ by_key key_1 inss (st, sym))
      by (unfold by_key; by apply list_elem_of_filter).
    split; [|done]. rewrite Hlook.
    by destruct (by_key key_1 inss (st, sym)); [inversion Hin|].
  - intros [(st & sym & l & Hl & Hx)|(st & rr & l & Hl & Hx)].
    + by rewrite lookup_empty in Hl.
    + rewrite Hlook in Hl. apply Hne in Hl. subst l.
      unfold by_key in Hx. by apply list_elem_of_filter in Hx as [_ ?].
  - intros Hx. right.
    rewrite Forall_forall in Hkeys. destruct (Hkeys x Hx) as [[st rr] Hk].
    exists st, rr, (by_key key_2 inss (st, rr)).
    assert (Hin : x ∈ by_key key_2 inss (st, rr))
      by (unfold by_key; by apply list_elem_of_filter).
    split; [|done]. rewrite Hlook.
    by destruct (by_key key_2 inss (st, rr)); [inversion Hin|].
Qed.

(** C3.  In a 1-tape store in which the instructions [inss] were
    registered in this order, the lookup of [(state, sym)] returns the
    instructions of the first of the four keys (state, sym),
    (state, wildcard), (wildcard, sym), (wildcard, wildcard) that has
    any, in their order of registration, and nothing when none has.
    A running machine on that store in the state [state] whose tape
    shows [sym] halts with the no-rule reason in the latter case.  In
    the former case [step] applies the first instruction of that list
    and no other: it returns that instruction, and the machine
    afterwards is the one that this instruction makes, its tape written
    with the write symbol of the instruction ([sym] for the wildcard)
    and its head moved by the move of the instruction, its state the
    next state of the instruction (the old state for the wildcard), its
    step counter one more, halted with its reason when the instruction
    has the breakpoint flag or the new state is a halting label.  When
    the write or move tuple of that instruction is empty or its move is
    no key of [MOVE], [step] raises instead, state and step counter
    as before. *)
Theorem get_1_tier_order (p : Program.t) (inss : list Instruction.t)
    (state sym : string) :
  Program.tapes p = 1 →
  registered p inss →
  let tiers :=
    [ by_key key_1 inss (state, sym); by_key key_1 inss (state, "*");
      by_key key_1 inss ("*", sym); by_key key_1 inss ("*", "*") ] in
  Program._get_1 p state sym = first_nonempty tiers
  ∧ ∀ (m m' : Machine.t) (tp : Tape.t) (r : outcome (option Instruction.t)),
      Machine.prog m = Some p →
      Machine.halted m = false →
      Machine.state m = state →
      Program.is_halt_state p state = false →
      Machine.tapes m = [tp] →
      Tape.read tp = sym →
      Machine.step m = (m', r) →
      match first_nonempty tiers with
      | [] =>
          r = Returned None
          ∧ m' = Machine.mk (Some p) [tp] state (Machine.steps m) true
                   ("Halted (no rule for state '" +:+ state +:+ "' reading "
                    +:+ Py.repr_tuple [sym] +:+ ").")
      | ins :: _ =>
          match Instruction.write ins !! 0%nat,
                Instruction.move ins !! 0%nat
                ≫= (fun mv => MOVE !! Py.lower mv) with
          | Some wi, Some d =>
              let w := if bool_decide (wi = "*") then sym else wi in
              let ns := if bool_decide (Instruction.next_state ins = "*")
                        then state else Instruction.next_state ins in
              r = Returned (Some ins)
              ∧ m' = Machine.mk (Some p)
                       [ Tape.mk (Tape.blank tp)
                           (Tape.cells (Tape.write tp w))
                           (Tape.head tp + d) ]
                       ns (Machine.steps m + 1)
                       (Instruction.breakpoint ins
                        || Program.is_halt_state p ns)
                       (if Program.is_halt_state p ns
                        then "Halted (entered state '" +:+ ns +:+ "')."
                        else if Instruction.breakpoint ins
                        then "Paused at breakpoint (line "
                             +:+ Py.str_int (Instruction.line_no ins + 1)
                             +:+ ")."
                        else Machine.halt_msg m)
          | _, _ =>
              (∃ e, r = Raised e)
              ∧ Machine.state m' = state
              ∧ Machine.steps m' = Machine.steps m
              ∧ Machine.halted m' = false
          end
      end.
Proof.
  intros Ht Hreg tiers.
  assert (Hget : Program._get_1 p state sym = first_nonempty tiers).
  { apply registered_grouped in Hreg. unfold grouped in Hreg.
    rewrite bool_decide_eq_true_2 in Hreg by done.
    destruct Hreg as (Hlook & _ & _).
    unfold Program._get_1, tiers. rewrite !Hlook.
    destruct (by_key key_1 inss (state, sym)); simpl; [|done].
    destruct (by_key key_1 inss (state, "*")); simpl; [|done].
    destruct (by_key key_1 inss ("*", sym)); simpl; [|done].
    by destruct (by_key key_1 inss ("*", "*")). }
  split; [done|].
  set (choices := first_nonempty tiers) in *. clearbody choices tiers.
  intros m m' tp r Hp Hh Hst Hhalt Htp Hread Hstep.
  unfold Machine.step in Hstep. rewrite Hp, Hh, Hst, Hhalt in Hstep.
  unfold Program.get_next, Machine.reads in Hstep.
  rewrite bool_decide_eq_true_2 in Hstep by done.
  rewrite Htp in Hstep. simpl in Hstep. rewrite Hread, Hget in Hstep.
  destruct m as [mp mts mst msteps mh mmsg]. simpl in *. subst mp mts mst mh.
  destruct choices as [|ins rest].
  { injection Hstep as <- <-. done. }
  assert (Hwrite : ∀ w, Tape.write tp w
                        = Tape.mk (Tape.blank tp) (Tape.cells (Tape.write tp w))
                            (Tape.head tp)).
  { intros w0. unfold Tape.write.
    destruct (bool_decide (w0 = Tape.blank tp)); reflexivity. }
  destruct (Instruction.write ins !! 0%nat) as [wi|].
  2:{ injection Hstep as <- <-. simpl. split; [eauto|done]. }
  set (w := if bool_decide (wi = "*") then sym else wi).
  assert (Hw : (if bool_decide (wi = "*") then Some sym else Some wi) = Some w)
    by (unfold w; by case_bool_decide).
  rewrite Hw in Hstep. simpl in Hstep.
  destruct (Instruction.move ins !! 0%nat) as [mv|]; simpl.
  2:{ injection Hstep as <- <-. simpl. split; [eauto|done]. }
  unfold Tape.move in Hstep.
  destruct (MOVE !! Py.lower mv) as [d|]; simpl in Hstep.
  2:{ injection Hstep as <- <-. simpl. split; [eauto|done]. }
  rewrite (Hwrite w) in Hstep. simpl in Hstep.
  injection Hstep as <- <-. split; [done|].
  unfold Machine.halt, Machine.entered_msg, Machine.breakpoint_msg.
  set (ns := if bool_decide (Instruction.next_state ins = "*")
             then state else Instruction.next_state ins).
  destruct (Instruction.breakpoint ins); simpl;
    destruct (Program.is_halt_state p ns) eqn:E; simpl; rewrite ?E;
    reflexivity.
Qed.

(** ** What the parser registers *)

Lemma string_app_assoc (s1 s2 s3 : string) :
  (s1 +:+ s2) +:+ s3 = s1 +:+ (s2 +:+ s3).
Proof.
  induction s1 as [|c s1 IH]; [done|].
  change (String c ((s1 +:+ s2) +:+ s3) = String c (s1 +:+ (s2 +:+ s3))).
  by rewrite IH.
Qed.

Lemma take_length_le {A : Type} (n : nat) (l : list A) :
  (n ≤ length l)%nat → length (take n l) = n.
Proof. intros Hn. rewrite length_take. lia. Qed.

(** An accepted line gives an instruction stamped with the index of the
    line and with a read tuple of the size the store needs; a refused
    line gives a parse error that starts with the number of the line. *)
Lemma parse_rule_inv (tapes i : Z) (toks : list string) :
  match Program.parse_rule tapes i toks with
  | Returned ins =>
      Instruction.line_no ins = i
      ∧ if bool_decide (tapes = 1) then is_Some (key_1 ins)
        else is_Some (key_2 ins)
  | Raised e => ∃ descr, e = TMParseError (Program.line_prefix i +:+ descr)
  end.
Proof.
  unfold Program.parse_rule. case_bool_decide as Ht.
  - destruct (bool_decide (Z.of_nat (length toks) = 5)
              || bool_decide (Z.of_nat (length toks) = 6)) eqn:Hn;
      simpl; [|eauto].
    apply orb_true_iff in Hn. rewrite !bool_decide_eq_true in Hn.
    assert (Hlen : length (take 5 toks) = 5%nat)
      by (apply take_length_le; lia).
    destruct (take 5 toks) as [|cur [|cs [|ns [|d [|st [|]]]]]]; try done.
    destruct (negb (bool_decide (Py.len cs = 1))
              || negb (bool_decide (Py.len ns = 1))); [eauto|].
    destruct (negb (Program.is_direction d)); [eauto|].
    simpl. split; [done|]. by eexists.
  - destruct (bool_decide (Z.of_nat (length toks) = 8)
              || bool_decide (Z.of_nat (length toks) = 9)) eqn:Hn;
      simpl; [|eauto].
    apply orb_true_iff in Hn. rewrite !bool_decide_eq_true in Hn.
    assert (Hlen : length (take 8 toks) = 8%nat)
      by (apply take_length_le; lia).
    destruct (take 8 toks)
      as [|cur [|r1 [|r2 [|w1 [|w2 [|d1 [|d2 [|st [|]]]]]]]]]; try done.
    destruct (negb (bool_decide (Py.len r1 = 1)) || _); [eauto|].
    destruct (negb (Program.is_direction d1)
              || negb (Program.is_direction d2)); [eauto|].
    simpl. split; [done|]. by eexists.
Qed.

Lemma parse_line_inv (tapes i : Z) (raw : string) :
  match Program.parse_line tapes i raw with
  | Returned (Some ins) =>
      Instruction.line_no ins = i
      ∧ if bool_decide (tapes = 1) then is_Some (key_1 ins)
        else is_Some (key_2 ins)
  | Returned None => True
  | Raised e => ∃ descr, e = TMParseError (Program.line_prefix i +:+ descr)
  end.
Proof.
  unfold Program.parse_line.
  destruct (Program.directive_re_match _); [done|].
  case_bool_decide; [done|].
  pose proof (parse_rule_inv tapes i
                (Py.split (Program._strip_comment raw))) as Hrule.
  by destruct (Program.parse_rule _ _ _).
Qed.

Lemma add_returns (p : Program.t) (ins : Instruction.t) :
  (if bool_decide (Program.tapes p = 1) then is_Some (key_1 ins)
   else is_Some (key_2 ins)) →
  ∃ p', Program.add p ins = (p', Returned tt).
Proof.
  unfold Program.add, key_1, key_2. case_bool_decide.
  - destruct (Program.setdefault (Program._map_1 p) _ ∅) as [m1 inner].
    destruct (Instruction.read ins !! 0%nat) as [r0|]; simpl;
      [|by intros [? ?]].
    destruct (Program.setdefault inner r0 []). eauto.
  - destruct (Program.setdefault (Program._map_2 p) _ ∅) as [m2 inner].
    destruct (Instruction.read ins !! 0%nat) as [r0|]; simpl;
      [|by intros [? ?]].
    destruct (Instruction.read ins !! 1%nat) as [r1|]; simpl;
      [|by intros [? ?]].
    destruct (Program.setdefault inner (r0, r1) []). eauto.
Qed.

Lemma parse_lines_registered (lines : list string) :
  ∀ (p : Program.t) (i : Z) (inss : list Instruction.t),
    registered p inss →
    ∃ p', Program.parse_lines p i lines
          = (p', first_error (Program.tapes p) i lines)
          ∧ Program.tapes p' = Program.tapes p
          ∧ registered p' (inss ++ rule_lines (Program.tapes p) i lines).
Proof.
  induction lines as [|raw rest IH]; intros p i inss Hreg; simpl.
  - exists p. by rewrite app_nil_r.
  - pose proof (parse_line_inv (Program.tapes p) i raw) as Hinv.
    destruct (Program.parse_line (Program.tapes p) i raw) as [[ins|]|e].
    + destruct Hinv as [_ Hkey].
      destruct (add_returns p ins Hkey) as [p1 Hadd]. rewrite Hadd.
      pose proof (add_tapes _ _ _ _ Hadd) as Ht.
      destruct (IH p1 (i + 1) (inss ++ [ins])) as (p' & Hp' & Ht' & Hreg').
      { by eapply registered_add. }
      rewrite Ht in Hp', Ht', Hreg'.
      exists p'. rewrite <- app_assoc in Hreg'. done.
    + apply IH. done.
    + exists p. by rewrite app_nil_r.
Qed.

Lemma parse_from_text_registered (p : Program.t) (text : string) :
  ∃ p', Program.parse_from_text p text
        = (p', first_error (Program.tapes p) 0 (Py.splitlines text))
        ∧ Program.tapes p' = Program.tapes p
        ∧ registered p' (rule_lines (Program.tapes p) 0 (Py.splitlines text)).
Proof.
  unfold Program.parse_from_text.
  apply (parse_lines_registered (Py.splitlines text)
           (Program.mk (Program.tapes (Program.clear p))
              (Program.blank (Program.clear p)) ∅ ∅ text) 0 []).
  by apply registered_empty.
Qed.

(** The lines before the first refused one. *)
Lemma first_error_returned (tapes : Z) (lines : list string) :
  ∀ i : Z,
    (∀ (j : nat) raw, lines !! j = Some raw →
       ∃ r, Program.parse_line tapes (i + Z.of_nat j) raw = Returned r) →
    first_error tapes i lines = Returned tt.
Proof.
  induction lines as [|raw rest IH]; intros i Hok; simpl; [done|].
  destruct (Hok 0%nat raw eq_refl) as [r Hr].
  rewrite Z.add_0_r in Hr. rewrite Hr. apply IH.
  intros j raw' Hj. destruct (Hok (S j) raw' Hj) as [r' Hr'].
  exists r'. rewrite <- Hr'. f_equal. lia.
Qed.

Lemma rule_lines_elem (tapes : Z) (lines : list string) (x : Instruction.t) :
  ∀ i : Z,
    first_error tapes i lines = Returned tt →
    x ∈ rule_lines tapes i lines
    ↔ ∃ (j : nat) raw,
        lines !! j = Some raw
        ∧ Program.parse_line tapes (i + Z.of_nat j) raw = Returned (Some x).
Proof.
  induction lines as [|raw rest IH]; intros i Hok; simpl in *.
  - split; [by intros ?%elem_of_nil|by intros (? & ? & ? & _)].
  - destruct (Program.parse_line tapes i raw) as [[ins|]|e] eqn:Hraw;
      [| |done].
    + rewrite elem_of_cons, (IH (i + 1) Hok). split.
      * intros [->|(j & raw' & Hj & Hp)].
        -- exists 0%nat, raw. by rewrite Z.add_0_r.
        -- exists (S j), raw'. split; [done|]. rewrite <- Hp. f_equal. lia.
      * intros ([|j] & raw' & Hj & Hp); simpl in Hj.
        -- left. rewrite Z.add_0_r in Hp. congruence.
        -- right. exists j, raw'. split; [done|]. rewrite <- Hp. f_equal. lia.
    + rewrite (IH (i + 1) Hok). split.
      * intros (j & raw' & Hj & Hp).
        exists (S j), raw'. split; [done|]. rewrite <- Hp. f_equal. lia.
      * intros ([|j] & raw' & Hj & Hp); simpl in Hj.
        -- rewrite Z.add_0_r in Hp. congruence.
        -- exists j, raw'. split; [done|]. rewrite <- Hp. f_equal. lia.
Qed.

Lemma rule_lines_until_error (tapes : Z) (pre post : list string)
    (bad : string) (e : Exn) :
  ∀ i : Z,
    (∀ (j : nat) raw, pre !! j = Some raw →
       ∃ r, Program.parse_line tapes (i + Z.of_nat j) raw = Returned r) →
    Program.parse_line tapes (i + Z.of_nat (length pre)) bad = Raised e →
    first_error tapes i (pre ++ bad :: post) = Raised e
    ∧ rule_lines tapes i (pre ++ bad :: post) = rule_lines tapes i pre.
Proof.
  induction pre as [|raw rest IH]; intros i Hok Hbad; simpl in *.
  - rewrite Z.add_0_r in Hbad. by rewrite Hbad.
  - destruct (Hok 0%nat raw eq_refl) as [r Hr].
    rewrite Z.add_0_r in Hr. rewrite Hr.
    destruct (IH (i + 1)) as [He Hl].
    { intros j raw' Hj. destruct (Hok (S j) raw' Hj) as [r' Hr'].
      exists r'. rewrite <- Hr'. f_equal. lia. }
    { rewrite <- Hbad. f_equal. lia. }
    rewrite He, Hl. by destruct r.
Qed.

Lemma tier_program_registered :
  registered tier_program (rule_lines 1 0 (Py.splitlines tier_text)).
Proof.
  destruct (parse_from_text_registered empty_program tier_text)
    as (p' & Hp' & _ & Hreg).
  unfold tier_program. by rewrite Hp'.
Qed.

Lemma get_1_tier_order_witness :
  Program._get_1 tier_program "q" "1"
  = [ Instruction.mk "q" ["1"] ["d"] ["r"] "s4" false 3;
      Instruction.mk "q" ["1"] ["e"] ["r"] "s5" false 4 ]
  ∧ Program._get_1 tier_program "q" "0"
    = [ Instruction.mk "q" ["*"] ["c"] ["r"] "s3" false 2 ]
  ∧ Program._get_1 tier_program "p" "1"
    = [ Instruction.mk "*" ["1"] ["b"] ["r"] "s2" false 1 ]
  ∧ Program._get_1 tier_program "p" "0"
    = [ Instruction.mk "*" ["*"] ["a"] ["r"] "s1" false 0 ]
  ∧ snd (Machine.step tier_machine)
    = Returned (Some (Instruction.mk "q" ["1"] ["d"] ["r"] "s4" false 3))
  ∧ fst (Machine.step tier_machine)
    = Machine.mk (Some tier_program) [Tape.mk BLANK {[ 0 := "d" ]} 1]
        "s4" 1 false "".
Proof.
  pose proof (fun st sym =>
                get_1_tier_order tier_program _ st sym eq_refl
                  tier_program_registered) as H.
  split; [|split; [|split; [|split]]].
  - rewrite (proj1 (H "q" "1")). vm_compute. reflexivity.
  - rewrite (proj1 (H "q" "0")). vm_compute. reflexivity.
  - rewrite (proj1 (H "p" "1")). vm_compute. reflexivity.
  - rewrite (proj1 (H "p" "0")). vm_compute. reflexivity.
  - pose proof (proj2 (H "q" "1") tier_machine
                  (fst (Machine.step tier_machine))
                  (Tape.mk BLANK {[ 0 := "1" ]} 0)
                  (snd (Machine.step tier_machine))) as Hstep.
    cbv zeta in Hstep.
    assert (Htiers :
      first_nonempty
        [ by_key key_1 (rule_lines 1 0 (Py.splitlines tier_text)) ("q", "1");
          by_key key_1 (rule_lines 1 0 (Py.splitlines tier_text)) ("q", "*");
          by_key key_1 (rule_lines 1 0 (Py.splitlines tier_text)) ("*", "1");
          by_key key_1 (rule_lines 1 0 (Py.splitlines tier_text)) ("*", "*") ]
      = [ Instruction.mk "q" ["1"] ["d"] ["r"] "s4" false 3;
          Instruction.mk "q" ["1"] ["e"] ["r"] "s5" false 4 ])
      by (vm_compute; reflexivity).
    rewrite Htiers in Hstep.
    assert (Hall :
      snd (Machine.step tier_machine)
      = Returned (Some (Instruction.mk "q" ["1"] ["d"] ["r"] "s4" false 3))
      ∧ fst (Machine.step tier_machine)
        = Machine.mk (Some tier_program)
            [ Tape.mk (Tape.blank (Tape.mk BLANK {[ 0 := "1" ]} 0))
                (Tape.cells (Tape.write (Tape.mk BLANK {[ 0 := "1" ]} 0) "d"))
                (Tape.head (Tape.mk BLANK {[ 0 := "1" ]} 0) + 1) ]
            "s4" (Machine.steps tier_machine + 1)
            (false || Program.is_halt_state tier_program "s4")
            (Machine.halt_msg tier_machine)).
    { apply Hstep; vm_compute; reflexivity. }
    destruct Hall as [Hr Hm]. split; [exact Hr|].
    rewrite Hm. vm_compute. reflexivity.
Defined.

(** C4, as the code has it.  When the first line that the parser
    refuses is [bad], after the lines [pre], parsing raises the parse
    error of that line, which starts with its number counted from 1,
    and the store it was filling is left with the instructions of the
    rule lines of [pre], those and no others: the store was cleared
    first, and nothing of [bad] or of a later line is registered. *)
Theorem parse_error_keeps_preceding_rules (p : Program.t) (text : string)
    (pre post : list string) (bad : string) (e : Exn) :
  Py.splitlines text = pre ++ bad :: post →
  (∀ (j : nat) raw, pre !! j = Some raw →
     ∃ r, Program.parse_line (Program.tapes p) (Z.of_nat j) raw = Returned r) →
  Program.parse_line (Program.tapes p) (Z.of_nat (length pre)) bad = Raised e →
  ∃ p', Program.parse_from_text p text = (p', Raised e)
        ∧ (∃ descr,
             e = TMParseError
                   ("Line " +:+ Py.str_int (Z.of_nat (length pre) + 1)
                    +:+ ": " +:+ descr))
        ∧ ∀ ins,
            stored p' ins
            ↔ ∃ (j : nat) raw,
                pre !! j = Some raw
                ∧ Program.parse_line (Program.tapes p) (Z.of_nat j) raw
                  = Returned (Some ins).
Proof.
  intros Hlines Hpre Hbad.
  destruct (parse_from_text_registered p text) as (p' & Hp' & _ & Hreg).
  rewrite Hlines in Hp', Hreg.
  destruct (rule_lines_until_error (Program.tapes p) pre post bad e 0)
    as [He Hl]; [done|done|].
  rewrite He in Hp'. rewrite Hl in Hreg.
  exists p'. split; [done|]. split.
  - pose proof (parse_line_inv (Program.tapes p) (Z.of_nat (length pre)) bad)
      as Hinv.
    rewrite Hbad in Hinv. destruct Hinv as [descr ->].
    exists descr. unfold Program.line_prefix.
    by rewrite !string_app_assoc.
  - intros ins. rewrite (registered_stored _ _ ins Hreg).
    apply (rule_lines_elem (Program.tapes p) pre ins 0).
    by apply first_error_returned.
Qed.

Lemma parse_error_keeps_preceding_rules_witness :
  ∃ p', Program.parse_from_text empty_program partial_text
        = (p', Raised (TMParseError
                         "Line 2: expected 5 or 6 tokens for 1-tape rule"))
        ∧ stored p' (Instruction.mk "0" ["0"] ["0"] ["r"] "0" false 0).
Proof.
  destruct (parse_error_keeps_preceding_rules empty_program partial_text
              ["0 0 0 r 0"] ["0 _ _ * halt"] "0 1 1"
              (TMParseError "Line 2: expected 5 or 6 tokens for 1-tape rule"))
    as (p' & Hp' & _ & Hstored).
  - vm_compute. reflexivity.
  - intros [|j] raw Hj; [|done]. injection Hj as <-.
    eexists. vm_compute. reflexivity.
  - vm_compute. reflexivity.
  - exists p'. split; [exact Hp'|]. apply Hstored.
    exists 0%nat, "0 0 0 r 0". split; [reflexivity|]. vm_compute. reflexivity.
Defined.

(** C4, as the specification states it, fails: after the parse error of
    the second line of [partial_text], the rule of the first line is
    still in the store. *)
Lemma parse_error_leaves_store_populated :
  ∃ p', Program.parse_from_text empty_program partial_text
        = (p', Raised (TMParseError
                         "Line 2: expected 5 or 6 tokens for 1-tape rule"))
        ∧ Program._map_1 p' ≠ ∅
        ∧ Program._get_1 p' "0" "0"
          = [Instruction.mk "0" ["0"] ["0"] ["r"] "0" false 0].
Proof.
  eexists. split; [vm_compute; reflexivity|]. split; [|reflexivity].
  intros Hempty. apply (f_equal (fun m => m !! "0")) in Hempty.
  vm_compute in Hempty. discriminate.
Qed.

(** C9, as the code has it.  After a parse that succeeds, the
    instructions in the store are those of the rule lines of the text,
    and the line-number field of the instruction of the [n]-th line,
    counted from 1, is [n - 1]: the field holds the index of the line
    counted from 0.  (The breakpoint message adds 1 to it.) *)
Theorem line_no_is_line_index (p p' : Program.t) (text : string) :
  Program.parse_from_text p text = (p', Returned tt) →
  (∀ ins, stored p' ins →
     ∃ (n : nat) raw,
       (1 ≤ n)%nat
       ∧ Py.splitlines text !! (n - 1)%nat = Some raw
       ∧ Program.parse_line (Program.tapes p) (Z.of_nat n - 1) raw
         = Returned (Some ins)
       ∧ Instruction.line_no ins = Z.of_nat n - 1)
  ∧ (∀ (n : nat) raw ins,
       (1 ≤ n)%nat →
       Py.splitlines text !! (n - 1)%nat = Some raw →
       Program.parse_line (Program.tapes p) (Z.of_nat n - 1) raw
       = Returned (Some ins) →
       stored p' ins ∧ Instruction.line_no ins = Z.of_nat n - 1).
Proof.
  intros Hparse.
  destruct (parse_from_text_registered p text) as (p1 & Hp1 & _ & Hreg).
  rewrite Hparse in Hp1. injection Hp1 as <- Hok. symmetry in Hok.
  pose proof (fun ins =>
                rule_lines_elem (Program.tapes p) (Py.splitlines text)
                  ins 0 Hok) as Helem.
  split.
  - intros ins Hst. apply (registered_stored _ _ ins Hreg), Helem in Hst.
    destruct Hst as (j & raw & Hj & Hp). rewrite Z.add_0_l in Hp.
    exists (S j), raw. replace (S j - 1)%nat with j by lia.
    replace (Z.of_nat (S j) - 1) with (Z.of_nat j) by lia.
    split; [lia|]. split; [done|]. split; [done|].
    pose proof (parse_line_inv (Program.tapes p) (Z.of_nat j) raw) as Hinv.
    rewrite Hp in Hinv. by destruct Hinv.
  - intros n raw ins Hn Hraw Hp. split.
    + apply (registered_stored _ _ ins Hreg), Helem.
      exists (n - 1)%nat, raw. split; [done|].
      rewrite <- Hp. f_equal. lia.
    + pose proof (parse_line_inv (Program.tapes p) (Z.of_nat n - 1) raw)
        as Hinv.
      rewrite Hp in Hinv. by destruct Hinv.
Qed.

Lemma line_no_is_line_index_witness :
  let p' := fst (Program.parse_from_text empty_program DEFAULT_PROGRAM) in
  stored p' (Instruction.mk "0" ["0"] ["0"] ["r"] "0" false 3)
  ∧ Instruction.line_no (Instruction.mk "0" ["0"] ["0"] ["r"] "0" false 3)
    = 4 - 1.
Proof.
  apply (proj2 (line_no_is_line_index empty_program
                  (fst (Program.parse_from_text empty_program DEFAULT_PROGRAM))
                  DEFAULT_PROGRAM ltac:(vm_compute; reflexivity))
           4%nat "0 0 0 r 0").
  - lia.
  - vm_compute. reflexivity.
  - vm_compute. reflexivity.
Defined.

(** C9, as the specification states it, fails: the instruction parsed
    from the first line of a text has the line number 0, not 1. *)
Lemma first_line_has_line_no_zero :
  ∃ p' ins,
    Program.parse_from_text empty_program "0 0 0 r 0" = (p', Returned tt)
    ∧ Program._get_1 p' "0" "0" = [ins]
    ∧ Instruction.line_no ins = 0
    ∧ Instruction.line_no ins ≠ 1.
Proof.
  eexists _, _. split; [vm_compute; reflexivity|].
  split; [reflexivity|]. split; [reflexivity|]. simpl. lia.
Qed.

(** * Further properties of the code *)

(** ** More on the tape *)

(** X1.  A read after a write gives the symbol written, the blank
    included; the write moves no head and changes the symbol of no
    other position. *)
Theorem tape_write_read (tp : Tape.t) (sym : string) :
  Tape.read (Tape.write tp sym) = sym
  ∧ Tape.head (Tape.write tp sym) = Tape.head tp
  ∧ Tape.blank (Tape.write tp sym) = Tape.blank tp
  ∧ ∀ i : Z, i ≠ Tape.head tp →
      symbol_at (Tape.write tp sym) i = symbol_at tp i.
Proof.
  unfold Tape.read, Tape.write, symbol_at.
  case_bool_decide as Hb; simpl.
  - rewrite lookup_delete_eq. simpl.
    split; [done|]. split; [done|]. split; [done|].
    intros i Hi. by rewrite lookup_delete_ne.
  - rewrite lookup_insert_eq. simpl.
    split; [done|]. split; [done|]. split; [done|].
    intros i Hi. by rewrite lookup_insert_ne.
Qed.

(** X2.  On a sparse tape, writing back the symbol that was just read
    changes nothing: this is the write of a rule whose write slot is
    the wildcard. *)
Theorem tape_write_back (tp : Tape.t) :
  sparse tp → Tape.write tp (Tape.read tp) = tp.
Proof.
  intros Hs. pose proof (proj1 (sparse_no_blank_stored tp) Hs (Tape.head tp)) as Hh'.
  clear Hs. unfold Tape.write, Tape.read. destruct tp as [b cells h]. simpl in *.
  destruct (cells !! h) as [s|] eqn:Hh; simpl.
  - rewrite bool_decide_eq_false_2 by congruence.
    by rewrite insert_id.
  - rewrite bool_decide_eq_true_2 by done.
    by rewrite delete_id.
Qed.

Lemma tape_write_back_witness :
  let tp := Tape.mk BLANK {[ 0 := "1" ]} 0 in
  Tape.write tp (Tape.read tp) = tp.
Proof.
  apply (tape_write_back (Tape.mk BLANK {[ 0 := "1" ]} 0)).
  apply (proj2 (sparse_no_blank_stored _)). intros i. simpl.
  destruct (decide (i = 0)) as [->|Hi].
  - rewrite lookup_singleton_eq. discriminate.
  - rewrite lookup_singleton_ne by done. discriminate.
Defined.

Lemma MOVE_lookup (m : string) (d : Z) :
  MOVE !! m = Some d →
  m ∈ ["l"; "r"; "*"; "s"; "n"]
  ∧ d = (if bool_decide (m = "l") then -1
         else if bool_decide (m = "r") then 1 else 0).
Proof.
  unfold MOVE. intros H.
  repeat (apply lookup_insert_Some in H as [[<- <-]|[_ H]];
          [split; [set_solver|done]|]).
  apply lookup_singleton_Some in H as [<- <-]. split; [set_solver|done].
Qed.

Lemma MOVE_lookup_None (m : string) :
  MOVE !! m = None → m ∉ ["l"; "r"; "*"; "s"; "n"].
Proof.
  intros H Hin.
  repeat (apply elem_of_cons in Hin as [->|Hin]; [by vm_compute in H|]).
  by apply elem_of_nil in Hin.
Qed.

(** X3.  A move never touches the cells.  When the direction, in lower
    case, is one of l, r, *, s, n, the head goes one cell left for l,
    one cell right for r, and stays for the others; for any other
    direction the call raises a ValueError and the tape is as
    before. *)
Theorem tape_move_cases (tp : Tape.t) (m : string) :
  match Tape.move tp m with
  | (tp', Returned _) =>
      (Py.lower m ∈ ["l"; "r"; "*"; "s"; "n"])
      ∧ Tape.cells tp' = Tape.cells tp
      ∧ Tape.blank tp' = Tape.blank tp
      ∧ Tape.head tp'
        = Tape.head tp
          + (if bool_decide (Py.lower m = "l") then -1
             else if bool_decide (Py.lower m = "r") then 1 else 0)
  | (tp', Raised e) =>
      (Py.lower m ∉ ["l"; "r"; "*"; "s"; "n"])
      ∧ tp' = tp
      ∧ e = ValueError ("Invalid move '" +:+ Py.lower m
                        +:+ "'. Expected l/r/*")
  end.
Proof.
  unfold Tape.move. destruct (MOVE !! Py.lower m) as [d|] eqn:Hd; simpl.
  - apply MOVE_lookup in Hd as [Hin ->]. done.
  - apply MOVE_lookup_None in Hd. done.
Qed.

(** ** More on the engine *)

Lemma write_loop_length (ins : Instruction.t) (reads : list string)
    (ts : list Tape.t) :
  ∀ (i : nat) ts' r,
    Machine.write_loop ins reads i ts = (ts', r) → length ts' = length ts.
Proof.
  induction ts as [|tape rest IH]; intros i ts' r H; simpl in H.
  - by simplify_eq.
  - destruct (Instruction.write ins !! i) as [wi|]; [|by simplify_eq].
    destruct (if bool_decide (wi = "*") then reads !! i else Some wi)
      as [w|]; [|by simplify_eq].
    destruct (Machine.write_loop ins reads (S i) rest) as [rest' r'] eqn:Hr.
    injection H as <- <-. simpl. f_equal. by eapply IH.
Qed.

Lemma move_loop_length (ins : Instruction.t) (ts : list Tape.t) :
  ∀ (i : nat) ts' r,
    Machine.move_loop ins i ts = (ts', r) → length ts' = length ts.
Proof.
  induction ts as [|tape rest IH]; intros i ts' r H; simpl in H.
  - by simplify_eq.
  - destruct (Instruction.move ins !! i) as [mv|]; [|by simplify_eq].
    destruct (Tape.move tape mv) as [tape' [[]|e]]; [|by simplify_eq].
    destruct (Machine.move_loop ins (S i) rest) as [rest' r'] eqn:Hr.
    injection H as <- <-. simpl. f_equal. by eapply IH.
Qed.

(** X4.  When [step] returns an instruction, the machine was running
    in a state that is no halting label, the instruction is the first
    of the list that the lookup gives for the current state and the
    symbols under the heads, and afterwards: the step counter is one
    more, the state is the next state of the instruction (the old state
    when it is the wildcard), the program and the number of tapes are
    the same, and the machine is halted exactly when the instruction
    has the breakpoint flag or the new state is a halting label. *)
Theorem step_applies_first_choice (m m' : Machine.t) (p : Program.t)
    (ins : Instruction.t) :
  Machine.prog m = Some p →
  Machine.step m = (m', Returned (Some ins)) →
  Machine.halted m = false
  ∧ Program.is_halt_state p (Machine.state m) = false
  ∧ (∃ rest, Program.get_next p (Machine.state m) (Machine.reads m)
             = Returned (ins :: rest))
  ∧ Machine.prog m' = Some p
  ∧ Machine.steps m' = Machine.steps m + 1
  ∧ Machine.state m'
    = (if bool_decide (Instruction.next_state ins = "*")
       then Machine.state m else Instruction.next_state ins)
  ∧ length (Machine.tapes m') = length (Machine.tapes m)
  ∧ Machine.halted m'
    = Instruction.breakpoint ins
      || Program.is_halt_state p (Machine.state m').
Proof.
  unfold Machine.step. intros Hp H. rewrite Hp in H.
  destruct (Machine.halted m) eqn:Hh; [by simplify_eq|].
  destruct (Program.is_halt_state p (Machine.state m)) eqn:Hhalt;
    [by simplify_eq|].
  destruct (Program.get_next p (Machine.state m) (Machine.reads m))
    as [[|ins' choices]|e]; [by simplify_eq| |by simplify_eq].
  destruct (Machine.write_loop _ _ _ _) as [ts [[]|e]] eqn:Hw;
    [|by simplify_eq].
  destruct (Machine.move_loop _ _ _) as [ts' [[]|e]] eqn:Hm;
    [|by simplify_eq].
  apply write_loop_length in Hw. apply move_loop_length in Hm.
  injection H as <- ->. unfold Machine.halt. simpl.
  split; [done|]. split; [done|]. split; [by eexists|].
  set (ns := if bool_decide (Instruction.next_state ins = "*")
             then Machine.state m else Instruction.next_state ins).
  destruct (Instruction.breakpoint ins); simpl;
    destruct (Program.is_halt_state p ns) eqn:E; simpl; rewrite ?E;
    repeat split; congruence.
Qed.

Lemma step_applies_first_choice_witness :
  let m' := fst (Machine.step tier_machine) in
  Machine.steps m' = 1 ∧ Machine.state m' = "s4"
  ∧ Machine.halted m' = false.
Proof.
  destruct (step_applies_first_choice tier_machine
              (fst (Machine.step tier_machine)) tier_program
              (Instruction.mk "q" ["1"] ["d"] ["r"] "s4" false 3))
    as (_ & _ & _ & _ & Hn & Hs & _ & Hh).
  - vm_compute. reflexivity.
  - vm_compute. reflexivity.
  - split; [exact Hn|]. split; [exact Hs|]. rewrite Hh. vm_compute. reflexivity.
Defined.

(** X5.  When [step] on a machine bound to a program returns nothing,
    the machine is halted afterwards.  If it was running, the reason is
    the entered-halt-state one when the current state is a halting
    label, and otherwise the no-rule one, the lookup having given an
    empty list. *)
Theorem step_nothing_means_halted (m m' : Machine.t) (p : Program.t) :
  Machine.prog m = Some p →
  Machine.step m = (m', Returned None) →
  Machine.halted m' = true
  ∧ (Machine.halted m = false →
     if Program.is_halt_state p (Machine.state m)
     then Machine.halt_msg m'
          = "Halted (entered state '" +:+ Machine.state m +:+ "')."
     else Machine.halt_msg m'
          = "Halted (no rule for state '" +:+ Machine.state m
            +:+ "' reading " +:+ Py.repr_tuple (Machine.reads m) +:+ ")."
          ∧ Program.get_next p (Machine.state m) (Machine.reads m)
            = Returned []).
Proof.
  unfold Machine.step. intros Hp H. rewrite Hp in H.
  destruct (Machine.halted m) eqn:Hh; [by simplify_eq|].
  destruct (Program.is_halt_state p (Machine.state m)) eqn:Hhalt;
    [by simplify_eq|].
  destruct (Program.get_next p (Machine.state m) (Machine.reads m))
    as [[|ins' choices]|e]; [by simplify_eq| |by simplify_eq].
  destruct (Machine.write_loop _ _ _ _) as [ts [[]|e]]; [|by simplify_eq].
  destruct (Machine.move_loop _ _ _) as [ts' [[]|e]]; by simplify_eq.
Qed.

Lemma step_nothing_means_halted_witness :
  let m' := fst (Machine.step stuck_machine) in
  Machine.halted m' = true
  ∧ Machine.halt_msg m' = "Halted (no rule for state 'q' reading ('1',)).".
Proof.
  destruct (step_nothing_means_halted stuck_machine
              (fst (Machine.step stuck_machine))
              (Program.mk 1 BLANK ∅ ∅ "") eq_refl)
    as [Hh Hmsg]; [vm_compute; reflexivity|].
  split; [exact Hh|]. exact (proj1 (Hmsg eq_refl)).
Defined.

(** X6.  Resetting twice with the same input word and initial state is
    the same as resetting once: the outcome is the same and so is the
    machine, whatever the tapes held and whether a program is bound or
    not. *)
Theorem reset_idempotent (m : Machine.t) (input_w initial_state : string) :
  Machine.reset (fst (Machine.reset m input_w initial_state))
    input_w initial_state
  = Machine.reset m input_w initial_state.
Proof.
  assert (Hconst : ∀ l : list Tape.t,
            map (fun tp => Tape.reset
                             (Tape.mk BLANK (Tape.cells tp) (Tape.head tp)))
                l
            = replicate (length l) (Tape.mk BLANK ∅ 0)).
  { induction l as [|x l IH]; simpl; [done|]. by rewrite IH. }
  unfold Machine.reset.
  destruct (Machine.prog m) as [p|] eqn:Hp; [|simpl; by rewrite Hp].
  rewrite Hconst.
  destruct (Machine.tapes m) as [|t0 [|t1 [|t2 rest]]]; simpl;
    rewrite ?Hp, ?Hconst, ?length_replicate; done.
Qed.

Lemma step_counter (m m' : Machine.t) (p : Program.t)
    (o : option Instruction.t) :
  Machine.prog m = Some p →
  Machine.halted m = false →
  Machine.step m = (m', Returned o) →
  Machine.prog m' = Some p
  ∧ match o with
    | Some _ => Machine.steps m' = Machine.steps m + 1
    | None => Machine.steps m' = Machine.steps m ∧ Machine.halted m' = true
    end.
Proof.
  unfold Machine.step. intros Hp Hh H. rewrite Hp, Hh in H.
  destruct (Program.is_halt_state p (Machine.state m)); [by simplify_eq|].
  destruct (Program.get_next p (Machine.state m) (Machine.reads m))
    as [[|ins' choices]|e]; [by simplify_eq| |by simplify_eq].
  destruct (Machine.write_loop _ _ _ _) as [ts [[]|e]]; [|by simplify_eq].
  destruct (Machine.move_loop _ _ _) as [ts' [[]|e]]; [|by simplify_eq].
  injection H as <- <-.
  destruct (Instruction.breakpoint ins'); simpl;
    by destruct (Program.is_halt_state p _).
Qed.

Lemma run_steps_halted (n : nat) (m : Machine.t) :
  Machine.halted m = true → Machine.run_steps n m = (m, Returned tt).
Proof. intros Hh. destruct n; simpl; [done|]. by rewrite Hh. Qed.

(** X7.  A loop of at most [n] calls of [step] that raises nothing, on
    a machine bound to a program, adds at most [n] to the step counter,
    and when it adds less the machine is halted: the loop ends early
    only on a halt.  The program stays bound. *)
Theorem run_steps_counts (n : nat) (m m' : Machine.t) (p : Program.t) :
  Machine.prog m = Some p →
  Machine.run_steps n m = (m', Returned tt) →
  Machine.prog m' = Some p
  ∧ Machine.steps m ≤ Machine.steps m' ≤ Machine.steps m + Z.of_nat n
  ∧ (Machine.halted m' = true
     ∨ Machine.steps m' = Machine.steps m + Z.of_nat n).
Proof.
  revert m. induction n as [|n IH]; intros m Hp Hrun; simpl in Hrun.
  - injection Hrun as <-. split; [done|]. split; [lia|]. right. lia.
  - destruct (Machine.halted m) eqn:Hh.
    + injection Hrun as <-. split; [done|]. split; [lia|]. by left.
    + destruct (Machine.step m) as [m1 [o|e]] eqn:Hstep; [|done].
      destruct (step_counter m m1 p o Hp Hh Hstep) as [Hp1 Ho].
      destruct o as [ins|].
      * destruct (IH m1 Hp1 Hrun) as (Hp' & Hle & Hor).
        split; [done|]. split; [lia|].
        destruct Hor as [?|?]; [by left|right; lia].
      * destruct Ho as [Hs Hh1].
        rewrite (run_steps_halted n m1 Hh1) in Hrun. injection Hrun as <-.
        split; [done|]. split; [lia|]. by left.
Qed.

Lemma run_steps_counts_witness :
  let m' := fst (Machine.run_steps 10 tier_machine) in
  0 ≤ Machine.steps m' ≤ 10
  ∧ (Machine.halted m' = true ∨ Machine.steps m' = 10).
Proof.
  destruct (run_steps_counts 10 tier_machine
              (fst (Machine.run_steps 10 tier_machine)) tier_program)
    as (_ & Hle & Hor).
  - vm_compute. reflexivity.
  - vm_compute. reflexivity.
  - split; [exact Hle|exact Hor].
Defined.

(** ** Halting labels *)

Lemma rstrip_nonspace (c : ascii) (r : string) :
  Py.isspace c = false → Py.rstrip (String c r) = String c (Py.rstrip r).
Proof. intros Hc. simpl. rewrite Hc. by destruct (Py.rstrip r). Qed.

Lemma lstrip_app_spaces (pre s : string) :
  Py.lstrip pre = "" → Py.lstrip (pre +:+ s) = Py.lstrip s.
Proof.
  induction pre as [|c pre IH]; [done|].
  change (String c pre +:+ s) with (String c (pre +:+ s)). simpl.
  destruct (Py.isspace c); [done|discriminate].
Qed.

Lemma isspace_lower_char (c : ascii) :
  Py.isspace c = true → Py.lower_char c = c.
Proof.
  unfold Py.isspace, Py.lower_char. generalize (Py.code c). intros n Hn.
  destruct ((65 <=? n)%N && (n <=? 90)%N
            || (192 <=? n)%N && (n <=? 222)%N && negb (n =? 215)%N) eqn:Hup;
    [|done].
  exfalso.
  repeat first [ apply orb_true_iff in Hn as [Hn|Hn]
               | apply andb_true_iff in Hn as [? ?] ].
  all: repeat first [ apply orb_true_iff in Hup as [Hup|Hup]
                    | apply andb_true_iff in Hup as [Hup ?] ].
  all: repeat match goal with
         | H : (_ <=? _)%N = true |- _ => apply N.leb_le in H
         | H : (_ =? _)%N = true |- _ => apply N.eqb_eq in H
         end; lia.
Qed.

(** X8.  A state label is a halting label as soon as, after any white
    space in front, it starts with the four letters of halt in any
    case, whatever follows. *)
Theorem is_halt_state_prefix (p : Program.t) (pre w rest : string) :
  Py.lstrip pre = "" →
  Py.lower w = "halt" →
  Program.is_halt_state p (pre +:+ w +:+ rest) = true.
Proof.
  intros Hpre Hw. unfold Program.is_halt_state, Py.strip.
  rewrite lstrip_app_spaces by done.
  destruct w as [|c1 [|c2 [|c3 [|c4 [|c5 w]]]]]; try discriminate.
  injection Hw as H1 H2 H3 H4.
  assert (Hns : ∀ c k, Py.lower_char c = k → Py.isspace k = false →
                       Py.isspace c = false).
  { intros c k Hk Hsp. destruct (Py.isspace c) eqn:Hc; [|done].
    pose proof (isspace_lower_char c Hc). congruence. }
  pose proof (Hns _ _ H1 eq_refl) as N1. pose proof (Hns _ _ H2 eq_refl) as N2.
  pose proof (Hns _ _ H3 eq_refl) as N3. pose proof (Hns _ _ H4 eq_refl) as N4.
  change ((String c1 (String c2 (String c3 (String c4 ""))) +:+ rest))
    with (String c1 (String c2 (String c3 (String c4 rest)))).
  cbn [Py.lstrip]. rewrite N1.
  rewrite !rstrip_nonspace by done.
  cbn [Py.lower]. rewrite H1, H2, H3, H4.
  by destruct (Py.lower (Py.rstrip rest)).
Qed.

Lemma is_halt_state_prefix_witness :
  Program.is_halt_state empty_program (" " +:+ "HaLt" +:+ "-accept ") = true.
Proof.
  apply (is_halt_state_prefix empty_program " " "HaLt" "-accept ");
    reflexivity.
Defined.

(** ** What the lookups return *)

Lemma key_1_Some (ins : Instruction.t) (a b : string) :
  key_1 ins = Some (a, b)
  ↔ Instruction.cur_state ins = a ∧ Instruction.read ins !! 0%nat = Some b.
Proof.
  unfold key_1. destruct (Instruction.read ins !! 0%nat) as [r0|]; simpl.
  - split; [by intros [= <- <-]|by intros [<- [= <-]]].
  - split; [done|by intros [_ ?]].
Qed.

Lemma key_2_Some (ins : Instruction.t) (a b c : string) :
  key_2 ins = Some (a, (b, c))
  ↔ Instruction.cur_state ins = a
    ∧ Instruction.read ins !! 0%nat = Some b
    ∧ Instruction.read ins !! 1%nat = Some c.
Proof.
  unfold key_2.
  destruct (Instruction.read ins !! 0%nat) as [r0|],
    (Instruction.read ins !! 1%nat) as [r1|]; simpl.
  - split; [by intros [= <- <- <-]|by intros (<- & [= <-] & [= <-])].
  - split; [done|by intros (_ & _ & ?)].
  - split; [done|by intros (_ & ? & _)].
  - split; [done|by intros (_ & ? & _)].
Qed.

Lemma elem_of_by_key {K : Type} `{EqDecision K}
    (key : Instruction.t → option K) (inss : list Instruction.t) (k : K)
    (x : Instruction.t) :
  x ∈ by_key key inss k ↔ key x = Some k ∧ x ∈ inss.
Proof.
  unfold by_key.
  apply (list_elem_of_filter (fun ins => key ins = Some k)).
Qed.

Lemma by_key_nil {K : Type} `{EqDecision K}
    (key : Instruction.t → option K) (inss : list Instruction.t) (k : K) :
  by_key key inss k = [] ↔ ∀ x, x ∈ inss → key x ≠ Some k.
Proof.
  split.
  - intros Hnil x Hx Hk.
    assert (Hin : x ∈ by_key key inss k) by by apply elem_of_by_key.
    rewrite Hnil in Hin. by apply elem_of_nil in Hin.
  - intros Hno. destruct (by_key key inss k) as [|x l] eqn:Hl; [done|].
    assert (Hin : x ∈ by_key key inss k) by (rewrite Hl; left).
    apply elem_of_by_key in Hin as [Hk Hx]. by destruct (Hno x Hx).
Qed.

Lemma get_1_first_nonempty (p : Program.t) (inss : list Instruction.t)
    (st sym : string) :
  Program.tapes p = 1 →
  registered p inss →
  Program._get_1 p st sym
  = first_nonempty
      [ by_key key_1 inss (st, sym); by_key key_1 inss (st, "*");
        by_key key_1 inss ("*", sym); by_key key_1 inss ("*", "*") ].
Proof.
  intros Ht Hreg. apply registered_grouped in Hreg. unfold grouped in Hreg.
  rewrite bool_decide_eq_true_2 in Hreg by done.
  destruct Hreg as (Hlook & _ & _).
  unfold Program._get_1. rewrite !Hlook.
  destruct (by_key key_1 inss (st, sym)); simpl; [|done].
  destruct (by_key key_1 inss (st, "*")); simpl; [|done].
  destruct (by_key key_1 inss ("*", sym)); simpl; [|done].
  by destruct (by_key key_1 inss ("*", "*")).
Qed.

Lemma first_nonempty_elem {A : Type} (tiers : list (list A)) (x : A) :
  x ∈ first_nonempty tiers → ∃ t, t ∈ tiers ∧ x ∈ t.
Proof.
  induction tiers as [|[|y t] tiers IH]; simpl; intros Hx.
  - by apply elem_of_nil in Hx.
  - destruct (IH Hx) as (t' & Ht' & Hxt). exists t'. split; [by right|done].
  - exists (y :: t). split; [by left|done].
Qed.

Lemma first_nonempty_nil {A : Type} (tiers : list (list A)) :
  first_nonempty tiers = [] ↔ ∀ t, t ∈ tiers → t = [].
Proof.
  induction tiers as [|[|y t] tiers IH]; simpl.
  - split; [|done]. intros _ t Ht. by apply elem_of_nil in Ht.
  - rewrite IH. split.
    + intros H t [->|Ht]%elem_of_cons; [done|by apply H].
    + intros H t Ht. apply H. by right.
  - split; [done|]. intros H. apply (H (y :: t)). by left.
Qed.

(** X9.  In a 1-tape store filled with the instructions [inss], every
    instruction that a lookup returns is one of [inss] and matches the
    looked-up state and symbol, exactly or through the wildcard; and
    the lookup returns nothing exactly when no instruction of [inss]
    matches. *)
Theorem get_1_sound_complete (p : Program.t) (inss : list Instruction.t)
    (st sym : string) :
  Program.tapes p = 1 →
  registered p inss →
  (∀ ins, ins ∈ Program._get_1 p st sym →
     ins ∈ inss ∧ matches_1 st sym ins)
  ∧ (Program._get_1 p st sym = []
     ↔ ∀ ins, ins ∈ inss → ¬ matches_1 st sym ins).
Proof.
  intros Ht Hreg. rewrite (get_1_first_nonempty p inss st sym Ht Hreg).
  split.
  - intros ins Hin. apply first_nonempty_elem in Hin as (t & Ht' & Hx).
    unfold matches_1.
    repeat (apply elem_of_cons in Ht' as [->|Ht'];
            [apply elem_of_by_key in Hx as [Hk Hx];
             apply key_1_Some in Hk as [? ?]; tauto|]).
    by apply elem_of_nil in Ht'.
  - rewrite first_nonempty_nil. split.
    + intros Hall ins Hin [[Hs|Hs] [Hr|Hr]].
      * assert (Hnil : by_key key_1 inss (st, sym) = [])
          by (apply Hall; set_solver).
        apply (proj1 (by_key_nil _ _ _) Hnil ins Hin). by apply key_1_Some.
      * assert (Hnil : by_key key_1 inss (st, "*") = [])
          by (apply Hall; set_solver).
        apply (proj1 (by_key_nil _ _ _) Hnil ins Hin). by apply key_1_Some.
      * assert (Hnil : by_key key_1 inss ("*", sym) = [])
          by (apply Hall; set_solver).
        apply (proj1 (by_key_nil _ _ _) Hnil ins Hin). by apply key_1_Some.
      * assert (Hnil : by_key key_1 inss ("*", "*") = [])
          by (apply Hall; set_solver).
        apply (proj1 (by_key_nil _ _ _) Hnil ins Hin). by apply key_1_Some.
    + intros Hno t Ht'.
      repeat (apply elem_of_cons in Ht' as [->|Ht'];
              [apply by_key_nil; intros x Hx Hk;
               apply key_1_Some in Hk as [? ?];
               apply (Hno x Hx); unfold matches_1; tauto|]).
      by apply elem_of_nil in Ht'.
Qed.

Lemma get_1_sound_complete_witness :
  (∀ ins, ins ∈ Program._get_1 tier_program "q" "0" →
     matches_1 "q" "0" ins)
  ∧ Program._get_1 tier_program "q" "0" ≠ [].
Proof.
  destruct (get_1_sound_complete tier_program _ "q" "0" eq_refl
              tier_program_registered) as [Hs Hc].
  split.
  - intros ins Hin. exact (proj2 (Hs ins Hin)).
  - intros Hnil. apply (proj1 Hc Hnil
                          (Instruction.mk "*" ["*"] ["a"] ["r"] "s1" false 0)).
    + vm_compute. left.
    + unfold matches_1. simpl. tauto.
Defined.

Lemma table_lookup (p : Program.t) (inss : list Instruction.t)
    (a : string) (rr : string * string) :
  Program.tapes p ≠ 1 →
  registered p inss →
  Spec.table p a !! rr = nonempty (by_key key_2 inss (a, rr)).
Proof.
  intros Ht Hreg. apply registered_grouped in Hreg. unfold grouped in Hreg.
  rewrite bool_decide_eq_false_2 in Hreg by done.
  destruct Hreg as (Hlook & _ & _). rewrite <- Hlook.
  unfold Spec.table. destruct (Program._map_2 p !! a); simpl; [done|].
  by rewrite lookup_empty.
Qed.

Lemma default_nonempty {A : Type} (l : list A) :
  default [] (nonempty l) = l.
Proof. by destruct l. Qed.

(** One pass over the table of the state [a]. *)
Lemma three_tier_pass_elem (inss : list Instruction.t) (a r1 r2 : string)
    (tbl : gmap (string * string) (list Instruction.t)) :
  (∀ rr, tbl !! rr = nonempty (by_key key_2 inss (a, rr))) →
  (∀ x, x ∈ Spec.three_tier_pass tbl r1 r2 →
     x ∈ inss ∧ Instruction.cur_state x = a
     ∧ (Instruction.read x !! 0%nat = Some r1
        ∨ Instruction.read x !! 0%nat = Some "*")
     ∧ (Instruction.read x !! 1%nat = Some r2
        ∨ Instruction.read x !! 1%nat = Some "*"))
  ∧ (Spec.three_tier_pass tbl r1 r2 = []
     ↔ ∀ x, x ∈ inss → Instruction.cur_state x = a →
         (Instruction.read x !! 0%nat = Some r1
          ∨ Instruction.read x !! 0%nat = Some "*") →
         (Instruction.read x !! 1%nat = Some r2
          ∨ Instruction.read x !! 1%nat = Some "*") →
         False).
Proof.
  intros Htbl. unfold Spec.three_tier_pass. rewrite !Htbl.
  rewrite !default_nonempty.
  assert (Hk : ∀ x b c, x ∈ by_key key_2 inss (a, (b, c)) →
                 x ∈ inss ∧ Instruction.cur_state x = a
                 ∧ Instruction.read x !! 0%nat = Some b
                 ∧ Instruction.read x !! 1%nat = Some c).
  { intros x b c [Hkey Hx]%elem_of_by_key.
    apply key_2_Some in Hkey. tauto. }
  assert (Hnil : ∀ b c, by_key key_2 inss (a, (b, c)) = [] →
                 ∀ x, x ∈ inss → Instruction.cur_state x = a →
                   Instruction.read x !! 0%nat = Some b →
                   Instruction.read x !! 1%nat = Some c → False).
  { intros b c Hbc x Hx Ha Hb Hc.
    apply (proj1 (by_key_nil _ _ _) Hbc x Hx). by apply key_2_Some. }
  assert (Hnil' : ∀ b c,
                 (∀ x, x ∈ inss → Instruction.cur_state x = a →
                   Instruction.read x !! 0%nat = Some b →
                   Instruction.read x !! 1%nat = Some c → False) →
                 by_key key_2 inss (a, (b, c)) = []).
  { intros b c Hno. apply by_key_nil. intros x Hx Hkey.
    apply key_2_Some in Hkey as (? & ? & ?). by eapply Hno. }
  destruct (by_key key_2 inss (a, (r1, r2))) as [|e0 exact] eqn:He;
    cbn [nonempty].
  - split.
    + intros x Hx. apply first_nonempty_elem in Hx as (t & Ht & Hx).
      apply elem_of_cons in Ht as [->|Ht].
      * apply elem_of_app in Hx as [Hx|Hx];
          apply Hk in Hx; tauto.
      * apply elem_of_cons in Ht as [->|Ht]; [|by apply elem_of_nil in Ht].
        apply Hk in Hx. tauto.
    + rewrite first_nonempty_nil. split.
      * intros Hall x Hx Ha [H0|H0] [H1|H1].
        -- by eapply (Hnil r1 r2).
        -- assert (Happ : by_key key_2 inss (a, (r1, "*"))
                          ++ by_key key_2 inss (a, ("*", r2)) = [])
             by (apply Hall; left).
           apply app_eq_nil in Happ as [? _]. by eapply (Hnil r1 "*").
        -- assert (Happ : by_key key_2 inss (a, (r1, "*"))
                          ++ by_key key_2 inss (a, ("*", r2)) = [])
             by (apply Hall; left).
           apply app_eq_nil in Happ as [_ ?]. by eapply (Hnil "*" r2).
        -- assert (Hany : by_key key_2 inss (a, ("*", "*")) = [])
             by (apply Hall; right; left).
           by eapply (Hnil "*" "*").
      * intros Hno t Ht.
        apply elem_of_cons in Ht as [->|Ht].
        -- rewrite (Hnil' r1 "*"), (Hnil' "*" r2); [done| |];
             intros x Hx Ha H0 H1; eapply (Hno x); eauto.
        -- apply elem_of_cons in Ht as [->|Ht]; [|by apply elem_of_nil in Ht].
           apply Hnil'. intros x Hx Ha H0 H1. eapply (Hno x); eauto.
  - split.
    + intros x Hx. rewrite <- He in Hx. apply Hk in Hx. tauto.
    + split; [done|]. intros Hno. exfalso.
      assert (Hin : e0 ∈ by_key key_2 inss (a, (r1, r2)))
        by (rewrite He; left).
      apply Hk in Hin as (? & ? & ? & ?). eapply (Hno e0); eauto.
Qed.

(** X10.  In a 2-tape store filled with the instructions [inss], every
    instruction that a lookup returns is one of [inss] and matches the
    looked-up state and pair of symbols, each exactly or through the
    wildcard; and the lookup returns nothing exactly when no instruction
    of [inss] matches. *)
Theorem get_2_sound_complete (p : Program.t) (inss : list Instruction.t)
    (st r1 r2 : string) :
  Program.tapes p ≠ 1 →
  registered p inss →
  (∀ ins, ins ∈ Program._get_2 p st r1 r2 →
     ins ∈ inss ∧ matches_2 st r1 r2 ins)
  ∧ (Program._get_2 p st r1 r2 = []
     ↔ ∀ ins, ins ∈ inss → ¬ matches_2 st r1 r2 ins).
Proof.
  intros Ht Hreg.
  destruct (three_tier_pass_elem inss st r1 r2 (Spec.table p st))
    as [Hs1 Hc1]; [intros rr; by apply table_lookup|].
  destruct (three_tier_pass_elem inss "*" r1 r2 (Spec.table p "*"))
    as [Hs2 Hc2]; [intros rr; by apply table_lookup|].
  unfold Program._get_2, matches_2. rewrite !pick_for_state_pass.
  destruct (Spec.three_tier_pass (Spec.table p st) r1 r2) as [|x own] eqn:Ho.
  - split.
    + intros ins Hin. destruct (Hs2 ins Hin) as (? & ? & ? & ?). tauto.
    + rewrite Hc2. split.
      * intros Hno ins Hin ([Ha|Ha] & H0 & H1).
        -- by eapply (proj1 Hc1 eq_refl ins).
        -- by eapply (Hno ins).
      * intros Hno ins Hin Ha H0 H1. apply (Hno ins Hin). tauto.
  - split.
    + intros ins Hin. destruct (Hs1 ins Hin) as (? & ? & ? & ?). tauto.
    + split; [done|]. intros Hno. exfalso.
      destruct (Hs1 x) as (Hx & Ha & H0 & H1); [left|].
      apply (Hno x Hx). tauto.
Qed.

Lemma pair_program_registered :
  registered pair_program (rule_lines 2 0 (Py.splitlines pair_text)).
Proof.
  destruct (parse_from_text_registered empty_program_2 pair_text)
    as (p' & Hp' & _ & Hreg).
  unfold pair_program. by rewrite Hp'.
Qed.

Lemma get_2_sound_complete_witness :
  (∀ ins, ins ∈ Program._get_2 pair_program "q" "a" "b" →
     matches_2 "q" "a" "b" ins)
  ∧ Program._get_2 pair_program "q" "a" "b" ≠ [].
Proof.
  destruct (get_2_sound_complete pair_program _ "q" "a" "b"
              ltac:(vm_compute; discriminate)
              pair_program_registered) as [Hs Hc].
  split.
  - intros ins Hin. exact (proj2 (Hs ins Hin)).
  - intros Hnil.
    apply (proj1 Hc Hnil
             (Instruction.mk "*" ["*"; "*"] ["x"; "y"] ["*"; "*"] "s3"
                false 2)).
    + vm_compute. right. right. left.
    + unfold matches_2. simpl. tauto.
Defined.

(** X11.  An instruction that [add] has just registered is found by the
    lookup of its own state and read symbols, last in the list that the
    lookup returns, for either number of tapes and whatever the store
    held before. *)
Theorem add_then_get_next (p p' : Program.t) (ins : Instruction.t) :
  Program.add p ins = (p', Returned tt) →
  ∃ old, Program.get_next p' (Instruction.cur_state ins)
           (Instruction.read ins)
         = Returned (old ++ [ins]).
Proof.
  intros Hadd. pose proof (add_tapes _ _ _ _ Hadd) as Ht.
  unfold Program.get_next. rewrite Ht. unfold Program.add in Hadd.
  destruct (bool_decide (Program.tapes p = 1)).
  - destruct (Instruction.read ins !! 0%nat) as [r0|] eqn:Hr0.
    2:{ destruct (Program.setdefault (Program._map_1 p) _ ∅).
        by simplify_eq. }
    pose proof (nested_append_lookup (Program._map_1 p)
                  (Instruction.cur_state ins) (Instruction.cur_state ins)
                  r0 r0 ins) as Hnest.
    destruct (Program.setdefault (Program._map_1 p) _ ∅) as [m1 inner].
    destruct (Program.setdefault inner r0 []) as [inner' l].
    injection Hadd as <-. unfold Program._get_1. simpl.
    rewrite Hnest, decide_True by done. by eexists.
  - destruct (Instruction.read ins !! 0%nat) as [r0|] eqn:Hr0.
    2:{ destruct (Program.setdefault (Program._map_2 p) _ ∅).
        by simplify_eq. }
    destruct (Instruction.read ins !! 1%nat) as [r1|] eqn:Hr1.
    2:{ destruct (Program.setdefault (Program._map_2 p) _ ∅).
        by simplify_eq. }
    destruct (Program.setdefault (Program._map_2 p) _ ∅) as [m2 inner].
    destruct (Program.setdefault inner (r0, r1) []) as [inner' l].
    injection Hadd as <-.
    unfold Program._get_2, Program.pick_for_state. simpl.
    rewrite lookup_insert_eq.
    rewrite bool_decide_eq_false_2 by apply insert_non_empty.
    rewrite lookup_insert_eq. exists l. by destruct l.
Qed.

Lemma add_then_get_next_witness :
  let ins := Instruction.mk "q" ["a"; "b"] ["x"; "y"] ["l"; "r"] "s" false 0 in
  ∃ old, Program.get_next (fst (Program.add pair_program ins)) "q" ["a"; "b"]
         = Returned (old ++ [ins]).
Proof.
  apply (add_then_get_next pair_program
           (fst (Program.add pair_program
                   (Instruction.mk "q" ["a"; "b"] ["x"; "y"] ["l"; "r"] "s"
                      false 0)))
           (Instruction.mk "q" ["a"; "b"] ["x"; "y"] ["l"; "r"] "s" false 0)).
  vm_compute. reflexivity.
Defined.

(** ** More on the parser *)

Lemma len_one (s : string) :
  negb (bool_decide (Py.len s = 1)) = false → String.length s = 1%nat.
Proof.
  intros H. apply negb_false_iff, bool_decide_eq_true in H.
  unfold Py.len in H. lia.
Qed.

Lemma is_direction_elem (d : string) :
  negb (Program.is_direction d) = false → Py.lower d ∈ ["l"; "r"; "*"].
Proof.
  intros H. apply negb_false_iff in H. unfold Program.is_direction in H.
  by apply bool_decide_eq_true in H.
Qed.

Lemma parse_rule_rule_shape (tapes i : Z) (toks : list string)
    (ins : Instruction.t) :
  Program.parse_rule tapes i toks = Returned ins →
  rule_shape (if bool_decide (tapes = 1) then 1%nat else 2%nat) ins
  ∧ toks !! 0%nat = Some (Instruction.cur_state ins)
  ∧ Instruction.breakpoint ins = bool_decide (last toks = Some "!")
                                 && bool_decide (length toks
                                                 = if bool_decide (tapes = 1)
                                                   then 6%nat else 9%nat).
Proof.
  unfold Program.parse_rule, rule_shape. case_bool_decide as Ht.
  - destruct (bool_decide (Z.of_nat (length toks) = 5)
              || bool_decide (Z.of_nat (length toks) = 6)) eqn:Hn;
      simpl; [|done].
    destruct toks as [|cur [|cs [|ns [|d [|st [|x [|y toks]]]]]]];
      try done; simpl.
    + destruct (negb (bool_decide (Py.len cs = 1))) eqn:H1; [done|].
      destruct (negb (bool_decide (Py.len ns = 1))) eqn:H2; [done|].
      destruct (negb (Program.is_direction d)) eqn:H3; [done|]. simpl.
      intros [= <-]. simpl.
      apply len_one in H1, H2. apply is_direction_elem in H3.
      repeat split; rewrite ?andb_true_r, ?andb_false_r; try done;
        repeat match goal with |- Forall _ _ => constructor end; done.
    + destruct (negb (bool_decide (Py.len cs = 1))) eqn:H1; [done|].
      destruct (negb (bool_decide (Py.len ns = 1))) eqn:H2; [done|].
      destruct (negb (Program.is_direction d)) eqn:H3; [done|]. simpl.
      intros [= <-]. simpl.
      apply len_one in H1, H2. apply is_direction_elem in H3.
      repeat split; rewrite ?andb_true_r, ?andb_false_r; try done;
        repeat match goal with |- Forall _ _ => constructor end; done.
    + apply orb_true_iff in Hn. rewrite !bool_decide_eq_true in Hn.
      simpl in Hn. lia.
  - destruct (bool_decide (Z.of_nat (length toks) = 8)
              || bool_decide (Z.of_nat (length toks) = 9)) eqn:Hn;
      simpl; [|done].
    destruct toks
      as [|cur [|r1 [|r2 [|w1 [|w2 [|d1 [|d2 [|st [|x [|y toks]]]]]]]]]];
      try done; simpl.
    + destruct (negb (bool_decide (Py.len r1 = 1))) eqn:H1; [done|].
      destruct (negb (bool_decide (Py.len r2 = 1))) eqn:H2; [done|].
      destruct (negb (bool_decide (Py.len w1 = 1))) eqn:H3; [done|].
      destruct (negb (bool_decide (Py.len w2 = 1))) eqn:H4; [done|].
      destruct (negb (Program.is_direction d1)) eqn:H5; [done|].
      destruct (negb (Program.is_direction d2)) eqn:H6; [done|]. simpl.
      intros [= <-]. simpl.
      apply len_one in H1, H2, H3, H4. apply is_direction_elem in H5, H6.
      repeat split; rewrite ?andb_true_r, ?andb_false_r; try done;
        repeat match goal with |- Forall _ _ => constructor end; done.
    + destruct (negb (bool_decide (Py.len r1 = 1))) eqn:H1; [done|].
      destruct (negb (bool_decide (Py.len r2 = 1))) eqn:H2; [done|].
      destruct (negb (bool_decide (Py.len w1 = 1))) eqn:H3; [done|].
      destruct (negb (bool_decide (Py.len w2 = 1))) eqn:H4; [done|].
      destruct (negb (Program.is_direction d1)) eqn:H5; [done|].
      destruct (negb (Program.is_direction d2)) eqn:H6; [done|]. simpl.
      intros [= <-]. simpl.
      apply len_one in H1, H2, H3, H4. apply is_direction_elem in H5, H6.
      repeat split; rewrite ?andb_true_r, ?andb_false_r; try done;
        repeat match goal with |- Forall _ _ => constructor end; done.
    + apply orb_true_iff in Hn. rewrite !bool_decide_eq_true in Hn.
      simpl in Hn. lia.
Qed.

(** X12.  An instruction made from the tokens of a rule line has the
    shape the engine needs: as many read symbols, write symbols and
    moves as there are tapes, each symbol of one character, each move
    one of l, r and the wildcard in lower case.  Its state is the first
    token, its line number the index of the line, and its breakpoint
    flag is set exactly when the line has one token more than a plain
    rule and that last token is the marker. *)
Theorem parse_rule_well_formed (tapes i : Z) (toks : list string)
    (ins : Instruction.t) :
  Program.parse_rule tapes i toks = Returned ins →
  rule_shape (if bool_decide (tapes = 1) then 1%nat else 2%nat) ins
  ∧ Instruction.line_no ins = i
  ∧ toks !! 0%nat = Some (Instruction.cur_state ins)
  ∧ Instruction.breakpoint ins
    = bool_decide (last toks = Some "!")
      && bool_decide (length toks
                      = if bool_decide (tapes = 1) then 6%nat else 9%nat).
Proof.
  intros H. pose proof (parse_rule_inv tapes i toks) as Hinv.
  rewrite H in Hinv. destruct Hinv as [Hline _].
  destruct (parse_rule_rule_shape tapes i toks ins H) as (? & ? & ?).
  done.
Qed.

Lemma parse_rule_well_formed_witness :
  ∃ ins, Program.parse_rule 2 4 ["q"; "a"; "b"; "x"; "*"; "L"; "R"; "s"; "!"]
         = Returned ins
         ∧ rule_shape 2 ins
         ∧ Instruction.move ins = ["l"; "r"]
         ∧ Instruction.breakpoint ins = true.
Proof.
  eexists. split; [vm_compute; reflexivity|].
  destruct (parse_rule_well_formed 2 4
              ["q"; "a"; "b"; "x"; "*"; "L"; "R"; "s"; "!"]
              (Instruction.mk "q" ["a"; "b"] ["x"; "*"] ["l"; "r"] "s" true 4))
    as (Hshape & _ & _ & Hbp); [vm_compute; reflexivity|].
  split; [exact Hshape|]. split; [reflexivity|exact Hbp].
Defined.

Lemma lstrip_before_first (raw : string) :
  (Py.lstrip raw = "" ∨ ∃ c, Py.lstrip raw = String ";" c) →
  Py.lstrip (Py.before_first ";" raw) = "".
Proof.
  induction raw as [|c r IH]; simpl; [done|].
  destruct (Py.isspace c) eqn:Hc.
  - intros H. case_bool_decide as Hsemi.
    + subst c. by vm_compute in Hc.
    + simpl. rewrite Hc. by apply IH.
  - intros [H|[c' H]]; [done|]. injection H as -> _.
    by rewrite bool_decide_eq_true_2.
Qed.

(** X13.  A line that holds only white space, or whose first character
    after white space is the comment marker, registers nothing and
    raises nothing, for either number of tapes. *)
Theorem comment_line_ignored (tapes i : Z) (raw : string) :
  (Py.lstrip raw = "" ∨ ∃ c, Py.lstrip raw = String ";" c) →
  Program.parse_line tapes i raw = Returned None.
Proof.
  intros H. unfold Program.parse_line.
  assert (Hdir : Program.directive_re_match (Py.strip raw) = false).
  { unfold Py.strip. destruct H as [->|[c ->]]; [done|].
    rewrite rstrip_nonspace by done. reflexivity. }
  rewrite Hdir. unfold Program._strip_comment, Py.strip.
  rewrite (lstrip_before_first raw H). done.
Qed.

Lemma comment_line_ignored_witness :
  Program.parse_line 1 0 "   ; 0 0 0 r 0" = Returned None.
Proof.
  apply (comment_line_ignored 1 0 "   ; 0 0 0 r 0").
  right. eexists. reflexivity.
Defined.

Lemma lstrip_nonspace (c : ascii) (r : string) :
  Py.isspace c = false → Py.lstrip (String c r) = String c r.
Proof. intros Hc. simpl. by rewrite Hc. Qed.

(** X14.  A line that starts with one of the directive keywords and a
    colon is skipped whatever follows the colon, even what would be a
    rule or a malformed rule: it registers nothing and raises
    nothing. *)
Theorem directive_line_skipped (tapes i : Z) (kw rest : string) :
  kw ∈ Program.directive_keywords →
  Program.parse_line tapes i (kw +:+ ":" +:+ rest) = Returned None.
Proof.
  intros Hkw. unfold Program.directive_keywords in Hkw.
  repeat (apply elem_of_cons in Hkw as [->|Hkw]);
    [..|by apply elem_of_nil in Hkw].
  all: unfold Program.parse_line, Py.strip; cbv [String.append].
  all: rewrite lstrip_nonspace by reflexivity.
  all: rewrite !rstrip_nonspace by reflexivity.
  all: by destruct (Py.rstrip rest).
Qed.

Lemma directive_line_skipped_witness :
  Program.parse_line 1 0 ("start" +:+ ":" +:+ " 0 0 r 0 bad line")
  = Returned None.
Proof.
  apply (directive_line_skipped 1 0 "start" " 0 0 r 0 bad line").
  vm_compute. right. right. left.
Defined.

(** ** The engine raises nothing on parsed rules *)

Lemma get_1_stored (p : Program.t) (st sym : string) (x : Instruction.t) :
  x ∈ Program._get_1 p st sym → stored p x.
Proof.
  unfold Program._get_1, stored. intros Hx. left.
  destruct (Program._map_1 p !! st ≫= (.!! sym)) as [l|] eqn:H1; [eauto|].
  destruct (Program._map_1 p !! st ≫= (.!! "*")) as [l|] eqn:H2; [eauto|].
  destruct (Program._map_1 p !! "*" ≫= (.!! sym)) as [l|] eqn:H3; [eauto|].
  destruct (Program._map_1 p !! "*" ≫= (.!! "*")) as [l|] eqn:H4; [eauto|].
  by apply elem_of_nil in Hx.
Qed.

Lemma pick_for_state_stored (p : Program.t) (r1 r2 st : string)
    (x : Instruction.t) :
  x ∈ Program.pick_for_state p r1 r2 st → stored p x.
Proof.
  unfold Program.pick_for_state, stored. intros Hx. right.
  destruct (Program._map_2 p !! st) as [m|] eqn:Hm;
    [|by apply elem_of_nil in Hx].
  assert (Hin : ∀ rr l, m !! rr = Some l → x ∈ l →
            ∃ st rr l, Program._map_2 p !! st ≫= (.!! rr) = Some l ∧ x ∈ l).
  { intros rr l Hl Hxl. exists st, rr, l. by rewrite Hm. }
  case_bool_decide; [by apply elem_of_nil in Hx|].
  destruct (m !! (r1, r2)) as [l|] eqn:He; [eauto|].
  destruct (m !! (r1, "*")) as [l1|] eqn:H1,
    (m !! ("*", r2)) as [l2|] eqn:H2; simpl in Hx.
  - destruct (l1 ++ l2) as [|y t] eqn:Happ.
    + destruct (m !! ("*", "*")) as [l|] eqn:H3; [eauto|].
      by apply elem_of_nil in Hx.
    + rewrite <- Happ in Hx. apply elem_of_app in Hx as [?|?]; eauto.
  - destruct l1 as [|y t]; [|eauto].
    destruct (m !! ("*", "*")) as [l|] eqn:H3; [eauto|].
    by apply elem_of_nil in Hx.
  - destruct l2 as [|y t]; [|eauto].
    destruct (m !! ("*", "*")) as [l|] eqn:H3; [eauto|].
    by apply elem_of_nil in Hx.
  - destruct (m !! ("*", "*")) as [l|] eqn:H3; [eauto|].
    by apply elem_of_nil in Hx.
Qed.

Lemma get_next_returns (p : Program.t) (st : string) (reads : list string) :
  length reads = tape_count p →
  ∃ l, Program.get_next p st reads = Returned l ∧ ∀ x, x ∈ l → stored p x.
Proof.
  unfold Program.get_next, tape_count. case_bool_decide; intros Hlen.
  - destruct reads as [|r0 [|]]; try done. simpl.
    eexists. split; [done|]. apply get_1_stored.
  - destruct reads as [|r0 [|r1 [|]]]; try done. simpl.
    eexists. split; [done|]. intros x Hx. unfold Program._get_2 in Hx.
    destruct (Program.pick_for_state p r0 r1 st) as [|y t] eqn:Hown.
    + by eapply pick_for_state_stored.
    + rewrite <- Hown in Hx. by eapply pick_for_state_stored.
Qed.

Lemma write_loop_returns (ins : Instruction.t) (reads : list string)
    (ts : list Tape.t) :
  ∀ i : nat,
    (i + length ts ≤ length (Instruction.write ins))%nat →
    (i + length ts ≤ length reads)%nat →
    ∃ ts', Machine.write_loop ins reads i ts = (ts', Returned tt).
Proof.
  induction ts as [|tape rest IH]; intros i Hw Hr; simpl in *; [eauto|].
  destruct (lookup_lt_is_Some_2 (Instruction.write ins) i) as [wi Hwi];
    [lia|].
  destruct (lookup_lt_is_Some_2 reads i) as [ri Hri]; [lia|].
  rewrite Hwi, Hri.
  destruct (IH (S i)) as [rest' Hrest]; [lia|lia|]. rewrite Hrest.
  destruct (bool_decide (wi = "*")); eauto.
Qed.

Lemma move_loop_returns (ins : Instruction.t) (ts : list Tape.t) :
  Forall (fun mv => mv ∈ ["l"; "r"; "*"]) (Instruction.move ins) →
  ∀ i : nat,
    (i + length ts ≤ length (Instruction.move ins))%nat →
    ∃ ts', Machine.move_loop ins i ts = (ts', Returned tt).
Proof.
  intros Hmoves.
  induction ts as [|tape rest IH]; intros i Hm; simpl in *; [eauto|].
  destruct (lookup_lt_is_Some_2 (Instruction.move ins) i) as [mv Hmv];
    [lia|].
  rewrite Hmv.
  assert (Hin : mv ∈ ["l"; "r"; "*"]).
  { rewrite Forall_forall in Hmoves. apply Hmoves.
    by eapply list_elem_of_lookup_2. }
  destruct (IH (S i)) as [rest' Hrest]; [lia|].
  repeat (apply elem_of_cons in Hin as [->|Hin];
          [unfold Tape.move; simpl; rewrite Hrest; eauto|]).
  by apply elem_of_nil in Hin.
Qed.

Lemma step_ready (m : Machine.t) (p : Program.t) :
  engine_ready m p →
  ∃ m' o, Machine.step m = (m', Returned o) ∧ engine_ready m' p.
Proof.
  intros (Hp & Hlen & Hshape). unfold Machine.step. rewrite Hp.
  destruct (Machine.halted m); [by eexists _, _|].
  destruct (Program.is_halt_state p (Machine.state m)).
  { eexists _, _. split; [done|]. by split. }
  destruct (get_next_returns p (Machine.state m) (Machine.reads m))
    as (l & Hl & Hstored).
  { unfold Machine.reads. by rewrite length_map. }
  rewrite Hl. destruct l as [|ins choices].
  { eexists _, _. split; [done|]. by split. }
  destruct (Hshape ins) as (_ & Hw & Hm & _ & Hmoves);
    [apply Hstored; left|].
  destruct (write_loop_returns ins (Machine.reads m) (Machine.tapes m) 0)
    as [ts Hts].
  { simpl. lia. }
  { unfold Machine.reads. rewrite length_map. simpl. lia. }
  rewrite Hts. pose proof (write_loop_length _ _ _ _ _ _ Hts) as Hlts.
  destruct (move_loop_returns ins ts Hmoves 0) as [ts' Hts'];
    [simpl; lia|].
  rewrite Hts'. pose proof (move_loop_length _ _ _ _ _ Hts') as Hlts'.
  eexists _, _. split; [done|].
  set (ns := if bool_decide (Instruction.next_state ins = "*")
             then Machine.state m else Instruction.next_state ins).
  unfold engine_ready, Machine.halt.
  destruct (Instruction.breakpoint ins); simpl;
    destruct (Program.is_halt_state p ns); simpl;
    (split; [done|split; [congruence|done]]).
Qed.

(** X15.  On a machine that is ready for its program, [step] raises
    nothing, and the machine is ready again afterwards: no index is out
    of range and no move is refused when the rules in the store have
    the shape of parsed rules. *)
Theorem step_never_raises (m : Machine.t) (p : Program.t) :
  engine_ready m p →
  ∃ m' o, Machine.step m = (m', Returned o)
          ∧ Machine.prog m' = Some p
          ∧ length (Machine.tapes m') = length (Machine.tapes m)
          ∧ engine_ready m' p.
Proof.
  intros Hready. destruct (step_ready m p Hready) as (m' & o & Hs & Hr).
  exists m', o. destruct Hready as (_ & Hl & _).
  pose proof Hr as (Hp' & Hl' & _).
  split; [done|]. split; [done|]. split; [congruence|done].
Qed.

Lemma rule_lines_shape (tapes : Z) (lines : list string)
    (x : Instruction.t) :
  ∀ i : Z,
    x ∈ rule_lines tapes i lines →
    rule_shape (if bool_decide (tapes = 1) then 1%nat else 2%nat) x.
Proof.
  induction lines as [|raw rest IH]; intros i Hx; simpl in Hx.
  - by apply elem_of_nil in Hx.
  - destruct (Program.parse_line tapes i raw) as [[ins|]|e] eqn:Hraw.
    + apply elem_of_cons in Hx as [->|Hx]; [|by eapply IH].
      unfold Program.parse_line in Hraw.
      destruct (Program.directive_re_match _); [done|].
      case_bool_decide; [done|].
      destruct (Program.parse_rule tapes i _) as [ins'|] eqn:Hrule; [|done].
      injection Hraw as ->.
      by destruct (parse_rule_rule_shape _ _ _ _ Hrule).
    + by eapply IH.
    + by apply elem_of_nil in Hx.
Qed.

Lemma parse_stored_shape (p0 p : Program.t) (text : string)
    (r : outcome unit) :
  Program.parse_from_text p0 text = (p, r) →
  Program.tapes p = Program.tapes p0
  ∧ ∀ ins, stored p ins → rule_shape (tape_count p) ins.
Proof.
  intros Hparse.
  destruct (parse_from_text_registered p0 text) as (p' & Hp' & Ht & Hreg).
  rewrite Hparse in Hp'. injection Hp' as <- _.
  split; [done|]. intros ins Hst.
  apply (registered_stored _ _ ins Hreg) in Hst.
  unfold tape_count. rewrite Ht. by eapply rule_lines_shape.
Qed.

Lemma configure_reset_ready (m0 : Machine.t) (p : Program.t)
    (input_w initial_state : string) :
  Program.tapes p = 1 ∨ Program.tapes p = 2 →
  (∀ ins, stored p ins → rule_shape (tape_count p) ins) →
  ∃ m, Machine.reset (Machine.configure m0 p) input_w initial_state
       = (m, Returned tt)
       ∧ engine_ready m p.
Proof.
  intros Ht Hshape. unfold Machine.reset, Machine.configure, engine_ready,
    tape_count in *. simpl.
  destruct Ht as [Ht|Ht]; rewrite Ht in *; simpl;
    eexists; (split; [reflexivity|]); simpl; done.
Qed.

Lemma run_steps_ready (n : nat) :
  ∀ (m : Machine.t) (p : Program.t),
    engine_ready m p →
    ∃ m', Machine.run_steps n m = (m', Returned tt) ∧ engine_ready m' p.
Proof.
  induction n as [|n IH]; intros m p Hready; simpl; [eauto|].
  destruct (Machine.halted m); [eauto|].
  destruct (step_ready m p Hready) as (m1 & o & Hstep & Hready1).
  rewrite Hstep. by apply IH.
Qed.

Lemma tier_machine_ready : engine_ready tier_machine tier_program.
Proof.
  destruct (parse_stored_shape empty_program tier_program tier_text
              (snd (Program.parse_from_text empty_program tier_text)))
    as [_ Hshape].
  { unfold tier_program. by destruct (Program.parse_from_text _ _). }
  split; [reflexivity|]. split; [reflexivity|]. exact Hshape.
Qed.

Lemma step_never_raises_witness :
  ∃ m' o, Machine.step tier_machine = (m', Returned o)
          ∧ Machine.prog m' = Some tier_program.
Proof.
  destruct (step_never_raises tier_machine tier_program tier_machine_ready)
    as (m' & o & Hstep & Hp & _).
  exists m', o. split; [exact Hstep|exact Hp].
Defined.

(** X16.  For a program of 1 or 2 tapes whose text parses, binding it
    to a machine, resetting the machine on any input word and initial
    state and calling [step] any number of times raises nothing: the
    whole session runs, with the parsed program bound and as many tapes
    as the program has. *)
Theorem parsed_session_never_raises (tapes : Z)
    (text input_w initial_state : string) (n : nat) (p : Program.t) :
  tapes = 1 ∨ tapes = 2 →
  Program.parse_from_text (Program.mk tapes BLANK ∅ ∅ "") text
  = (p, Returned tt) →
  ∃ m, session tapes text input_w initial_state n = Some m
       ∧ Machine.prog m = Some p
       ∧ length (Machine.tapes m) = Z.to_nat tapes.
Proof.
  intros Ht Hparse. unfold session.
  assert (Hnew : Program.new tapes = Returned (Program.mk tapes BLANK ∅ ∅ ""))
    by (by destruct Ht as [->| ->]).
  rewrite Hnew, Hparse.
  destruct (parse_stored_shape _ _ _ _ Hparse) as [Htp Hshape].
  simpl in Htp.
  destruct (configure_reset_ready Machine.new p input_w initial_state)
    as (m0 & Hreset & Hready0); [by rewrite Htp|done|].
  rewrite Hreset.
  destruct (run_steps_ready n m0 p Hready0) as (m & Hrun & Hp & Hlen & _).
  rewrite Hrun. exists m. split; [done|]. split; [done|].
  rewrite Hlen. unfold tape_count. rewrite Htp.
  by destruct Ht as [->| ->].
Qed.

Lemma parsed_session_never_raises_witness :
  ∃ m, session 2 pair_text "ab" "q" 25 = Some m
       ∧ length (Machine.tapes m) = 2%nat.
Proof.
  destruct (parsed_session_never_raises 2 pair_text "ab" "q" 25 pair_program)
    as (m & Hs & _ & Hl).
  - by right.
  - vm_compute. reflexivity.
  - exists m. split; [exact Hs|exact Hl].
Defined.

(** ** What a step does to the tapes *)

Lemma local_change_refl (tp : Tape.t) : local_change tp tp.
Proof. unfold local_change. split; [done|]. split; [done|lia]. Qed.

Lemma write_local (tp : Tape.t) (sym : string) :
  Tape.blank (Tape.write tp sym) = Tape.blank tp
  ∧ Tape.head (Tape.write tp sym) = Tape.head tp
  ∧ ∀ i : Z, i ≠ Tape.head tp →
      symbol_at (Tape.write tp sym) i = symbol_at tp i.
Proof.
  unfold Tape.write, symbol_at. case_bool_decide; simpl.
  - split; [done|]. split; [done|]. intros i Hi.
    by rewrite lookup_delete_ne.
  - split; [done|]. split; [done|]. intros i Hi.
    by rewrite lookup_insert_ne.
Qed.

Lemma move_local (tp tp' : Tape.t) (mv : string) (r : outcome unit) :
  Tape.move tp mv = (tp', r) →
  Tape.blank tp' = Tape.blank tp
  ∧ Tape.cells tp' = Tape.cells tp
  ∧ -1 ≤ Tape.head tp' - Tape.head tp ≤ 1.
Proof.
  unfold Tape.move. destruct (MOVE !! Py.lower mv) as [d|] eqn:Hd.
  - apply MOVE_lookup in Hd as [_ ->]. intros [= <- _]. simpl.
    split; [done|]. split; [done|].
    repeat case_bool_decide; lia.
  - intros [= <- _]. split; [done|]. split; [done|]. lia.
Qed.

Lemma write_loop_local (ins : Instruction.t) (reads : list string)
    (ts : list Tape.t) :
  ∀ (i : nat) ts' r,
    Machine.write_loop ins reads i ts = (ts', r) →
    Forall2 (fun tp tp' =>
               Tape.blank tp' = Tape.blank tp
               ∧ Tape.head tp' = Tape.head tp
               ∧ ∀ j : Z, j ≠ Tape.head tp →
                   symbol_at tp' j = symbol_at tp j) ts ts'.
Proof.
  assert (Hrefl : ∀ l : list Tape.t,
            Forall2 (fun tp tp' =>
               Tape.blank tp' = Tape.blank tp
               ∧ Tape.head tp' = Tape.head tp
               ∧ ∀ j : Z, j ≠ Tape.head tp →
                   symbol_at tp' j = symbol_at tp j) l l).
  { induction l; constructor; done. }
  induction ts as [|tape rest IH]; intros i ts' r H; simpl in H.
  - injection H as <- _. constructor.
  - destruct (Instruction.write ins !! i) as [wi|];
      [|injection H as <- _; apply Hrefl].
    destruct (if bool_decide (wi = "*") then reads !! i else Some wi)
      as [w|]; [|injection H as <- _; apply Hrefl].
    destruct (Machine.write_loop ins reads (S i) rest) as [rest' r'] eqn:Hr.
    injection H as <- _. constructor; [apply write_local|by eapply IH].
Qed.

Lemma move_loop_local (ins : Instruction.t) (ts : list Tape.t) :
  ∀ (i : nat) ts' r,
    Machine.move_loop ins i ts = (ts', r) →
    Forall2 (fun tp tp' =>
               Tape.blank tp' = Tape.blank tp
               ∧ Tape.cells tp' = Tape.cells tp
               ∧ -1 ≤ Tape.head tp' - Tape.head tp ≤ 1) ts ts'.
Proof.
  assert (Hrefl : ∀ l : list Tape.t,
            Forall2 (fun tp tp' =>
               Tape.blank tp' = Tape.blank tp
               ∧ Tape.cells tp' = Tape.cells tp
               ∧ -1 ≤ Tape.head tp' - Tape.head tp ≤ 1) l l).
  { induction l; constructor; [|done]. split; [done|]. split; [done|lia]. }
  induction ts as [|tape rest IH]; intros i ts' r H; simpl in H.
  - injection H as <- _. constructor.
  - destruct (Instruction.move ins !! i) as [mv|];
      [|injection H as <- _; apply Hrefl].
    destruct (Tape.move tape mv) as [tape' [[]|e]] eqn:Hmv.
    + destruct (Machine.move_loop ins (S i) rest) as [rest' r'] eqn:Hr.
      injection H as <- _.
      constructor; [by eapply move_local|by eapply IH].
    + injection H as <- _.
      constructor; [by eapply move_local|apply Hrefl].
Qed.

Lemma loops_local (ts ts1 ts2 : list Tape.t) :
  Forall2 (fun tp tp' =>
             Tape.blank tp' = Tape.blank tp
             ∧ Tape.head tp' = Tape.head tp
             ∧ ∀ j : Z, j ≠ Tape.head tp →
                 symbol_at tp' j = symbol_at tp j) ts ts1 →
  Forall2 (fun tp tp' =>
             Tape.blank tp' = Tape.blank tp
             ∧ Tape.cells tp' = Tape.cells tp
             ∧ -1 ≤ Tape.head tp' - Tape.head tp ≤ 1) ts1 ts2 →
  Forall2 local_change ts ts2.
Proof.
  intros H1. revert ts2.
  induction H1 as [|tp tp1 ts ts1 (Hb & Hh & Hs) _ IH]; intros ts2 H2.
  - inversion H2. constructor.
  - inversion H2 as [|? tp2 ? ts2' (Hb2 & Hc2 & Hh2) Hrest]; subst.
    constructor; [|by apply IH].
    unfold local_change. split; [congruence|]. split; [|lia].
    intros j Hj. rewrite <- (Hs j Hj). unfold symbol_at.
    by rewrite Hb2, Hc2.
Qed.

(** X17.  One call of [step], whatever it returns or raises, keeps the
    number of tapes and changes each tape locally: the blank is the
    same, every cell other than the one that was under the head shows
    the same symbol as before, and the head has moved by one cell at
    most. *)
Theorem step_changes_tapes_locally (m : Machine.t) :
  Forall2 local_change (Machine.tapes m)
    (Machine.tapes (fst (Machine.step m))).
Proof.
  assert (Hrefl : ∀ l : list Tape.t, Forall2 local_change l l).
  { induction l; constructor; [apply local_change_refl|done]. }
  unfold Machine.step.
  destruct (Machine.prog m) as [p|]; [|apply Hrefl].
  destruct (Machine.halted m); [apply Hrefl|].
  destruct (Program.is_halt_state p (Machine.state m)); [apply Hrefl|].
  destruct (Program.get_next p (Machine.state m) (Machine.reads m))
    as [[|ins choices]|e]; [apply Hrefl| |apply Hrefl].
  destruct (Machine.write_loop ins (Machine.reads m) 0 (Machine.tapes m))
    as [ts r] eqn:Hw.
  pose proof (write_loop_local _ _ _ _ _ _ Hw) as Hlw.
  destruct r as [[]|e].
  2:{ simpl. eapply loops_local; [exact Hlw|].
      clear. induction ts; constructor; [|done].
      split; [done|]. split; [done|lia]. }
  destruct (Machine.move_loop ins 0 ts) as [ts' r] eqn:Hm.
  pose proof (move_loop_local _ _ _ _ _ Hm) as Hlm.
  pose proof (loops_local _ _ _ Hlw Hlm) as Hl.
  destruct r as [[]|e]; [|exact Hl].
  set (ns := if bool_decide (Instruction.next_state ins = "*")
             then Machine.state m else Instruction.next_state ins).
  destruct (Instruction.breakpoint ins); simpl;
    destruct (Program.is_halt_state p ns); exact Hl.
Qed.

(** X18.  Resetting a machine that has a program and at least one
    tape forgets everything but the program and the number of tapes:
    the first tape holds the input word loaded on a blank tape, every
    other tape is blank with its head at 0, the state is the first
    word of the initial state given, or 0 when there is none, the step
    counter is 0, and the machine is running with no halt reason. *)
Theorem reset_postcondition (m : Machine.t) (p : Program.t)
    (t0 : Tape.t) (rest : list Tape.t) (input_w initial_state : string) :
  Machine.prog m = Some p →
  Machine.tapes m = t0 :: rest →
  Machine.reset m input_w initial_state
  = (Machine.mk (Some p)
       (Tape.load_leftmost (Tape.new BLANK) input_w
        :: replicate (length rest) (Tape.new BLANK))
       (default "0" (head (Py.split (Py.strip initial_state))))
       0 false "",
     Returned tt).
Proof.
  intros Hp Ht. unfold Machine.reset. rewrite Hp, Ht.
  assert (Hconst : ∀ l : list Tape.t,
            map (fun tp => Tape.reset
                             (Tape.mk BLANK (Tape.cells tp) (Tape.head tp)))
                l
            = replicate (length l) (Tape.new BLANK)).
  { induction l as [|x l IH]; simpl; [done|]. by rewrite IH. }
  simpl. rewrite Hconst.
  assert (Hst : match Py.split (Py.strip initial_state) with
                | [] => "0"
                | tok :: _ => tok
                end
                = default "0" (head (Py.split (Py.strip initial_state))))
    by (by destruct (Py.split (Py.strip initial_state))).
  rewrite Hst.
  destruct rest as [|t1 [|t2 rest]]; simpl; try done.
Qed.

Lemma reset_postcondition_witness :
  Machine.tapes (fst (Machine.reset used_machine "ab" "  q0 ignored"))
  = [Tape.mk BLANK {[ 0 := "a"; 1 := "b" ]} 0; Tape.new BLANK]
  ∧ Machine.state (fst (Machine.reset used_machine "ab" "  q0 ignored"))
    = "q0".
Proof.
  rewrite (reset_postcondition used_machine pair_program
             (Tape.mk "x" {[ 3 := "a" ]} 3) [Tape.mk "y" {[ 5 := "b" ]} (-2)]
             "ab" "  q0 ignored" eq_refl eq_refl).
  split; vm_compute; reflexivity.
Defined.

(** ** Registering and the other lookups *)

Lemma setdefault_nested {K : Type} `{Countable K} {V : Type}
    (m : gmap string (gmap K V)) (a a' : string) (k : K) :
  (Program.setdefault m a ∅).1 !! a' ≫= (.!! k) = m !! a' ≫= (.!! k).
Proof.
  rewrite setdefault_lookup. case_decide; [|done]. subst a'.
  destruct (m !! a); simpl; [done|]. by rewrite lookup_empty.
Qed.

(** X19.  When [add] raises, because the read tuple of the instruction
    is too short for the number of tapes, the error is an IndexError
    and no lookup has changed, although an empty table may have been
    made for the state of the instruction. *)
Theorem add_failure_changes_no_lookup (p p' : Program.t)
    (ins : Instruction.t) (e : Exn) :
  Program.add p ins = (p', Raised e) →
  e = IndexError "tuple index out of range"
  ∧ (length (Instruction.read ins) < tape_count p)%nat
  ∧ ∀ st reads, Program.get_next p' st reads = Program.get_next p st reads.
Proof.
  unfold Program.add, Program.get_next, tape_count. intros Hadd.
  case_bool_decide as Ht.
  - pose proof (fun a' k => setdefault_nested (Program._map_1 p)
                              (Instruction.cur_state ins) a' k) as Hsd.
    destruct (Program.setdefault (Program._map_1 p) _ ∅) as [m1 inner].
    destruct (Instruction.read ins !! 0%nat) as [r0|] eqn:Hr0.
    { destruct (Program.setdefault inner r0 []). by simplify_eq. }
    injection Hadd as <- <-. simpl in *.
    split; [done|]. split.
    { apply lookup_ge_None in Hr0. lia. }
    intros st reads. rewrite bool_decide_eq_true_2 by done.
    destruct (reads !! 0%nat); [|done].
    unfold Program._get_1. simpl. by rewrite !Hsd.
  - pose proof (fun a => setdefault_lookup (Program._map_2 p)
                              (Instruction.cur_state ins) a ∅) as Hsd.
    destruct (Program.setdefault (Program._map_2 p) _ ∅) as [m2 inner].
    simpl in Hsd.
    assert (Hp' : p' = Program.mk (Program.tapes p) (Program.blank p)
                         (Program._map_1 p) m2 (Program.source_text p)
                  ∧ e = IndexError "tuple index out of range"
                  ∧ (length (Instruction.read ins) < 2)%nat).
    { destruct (Instruction.read ins !! 0%nat) as [r0|] eqn:Hr0.
      - destruct (Instruction.read ins !! 1%nat) as [r1|] eqn:Hr1.
        + destruct (Program.setdefault inner (r0, r1) []). by simplify_eq.
        + injection Hadd as <- <-. apply lookup_ge_None in Hr1.
          split; [done|]. split; [done|lia].
      - injection Hadd as <- <-. apply lookup_ge_None in Hr0.
        split; [done|]. split; [done|lia]. }
    destruct Hp' as (-> & -> & Hlen). simpl in *.
    split; [done|]. split; [done|].
    intros st reads. rewrite bool_decide_eq_false_2 by done.
    destruct (reads !! 0%nat) as [r0|]; [|done].
    destruct (reads !! 1%nat) as [r1|]; [|done].
    assert (Hpick : ∀ a,
              Program.pick_for_state
                (Program.mk (Program.tapes p) (Program.blank p)
                   (Program._map_1 p) m2 (Program.source_text p)) r0 r1 a
              = Program.pick_for_state p r0 r1 a).
    { intros a. unfold Program.pick_for_state. simpl. rewrite (Hsd a).
      case_decide as Ha; [|done]. subst a.
      destruct (Program._map_2 p !! Instruction.cur_state ins); simpl;
        [done|].
      by rewrite bool_decide_eq_true_2. }
    unfold Program._get_2. by rewrite !Hpick.
Qed.

Lemma add_failure_changes_no_lookup_witness :
  let short := Instruction.mk "q" ["a"] ["x"] ["l"] "s" false 0 in
  snd (Program.add pair_program short)
  = Raised (IndexError "tuple index out of range")
  ∧ Program.get_next (fst (Program.add pair_program short)) "q" ["a"; "b"]
    = Program.get_next pair_program "q" ["a"; "b"].
Proof.
  destruct (add_failure_changes_no_lookup pair_program
              (fst (Program.add pair_program
                      (Instruction.mk "q" ["a"] ["x"] ["l"] "s" false 0)))
              (Instruction.mk "q" ["a"] ["x"] ["l"] "s" false 0)
              (IndexError "tuple index out of range"))
    as (_ & _ & Hsame); [vm_compute; reflexivity|].
  split; [vm_compute; reflexivity|]. exact (Hsame "q" ["a"; "b"]).
Defined.

Lemma add_lookup_1 (p p' : Program.t) (ins : Instruction.t) :
  Program.tapes p = 1 →
  Program.add p ins = (p', Returned tt) →
  ∃ r0, Instruction.read ins !! 0%nat = Some r0
        ∧ ∀ a b,
            Program._map_1 p' !! a ≫= (.!! b)
            = if decide (Instruction.cur_state ins = a ∧ r0 = b)
              then Some (default [] (Program._map_1 p !! a ≫= (.!! b))
                         ++ [ins])
              else Program._map_1 p !! a ≫= (.!! b).
Proof.
  intros Ht Hadd. unfold Program.add in Hadd.
  rewrite bool_decide_eq_true_2 in Hadd by done.
  destruct (Instruction.read ins !! 0%nat) as [r0|] eqn:Hr0.
  2:{ destruct (Program.setdefault (Program._map_1 p) _ ∅). by simplify_eq. }
  pose proof (fun a' => nested_append_lookup (Program._map_1 p)
                          (Instruction.cur_state ins) a' r0) as Hnest.
  destruct (Program.setdefault (Program._map_1 p) _ ∅) as [m1 inner].
  destruct (Program.setdefault inner r0 []) as [inner' l].
  injection Hadd as <-. simpl. exists r0. split; [done|].
  intros a b. rewrite Hnest. case_decide as Hd; [|done].
  by destruct Hd as [<- <-].
Qed.

Lemma add_lookup_2 (p p' : Program.t) (ins : Instruction.t) :
  Program.tapes p ≠ 1 →
  Program.add p ins = (p', Returned tt) →
  ∃ r0 r1, Instruction.read ins !! 0%nat = Some r0
           ∧ Instruction.read ins !! 1%nat = Some r1
           ∧ ∀ a rr,
               Program._map_2 p' !! a ≫= (.!! rr)
               = if decide (Instruction.cur_state ins = a ∧ (r0, r1) = rr)
                 then Some (default [] (Program._map_2 p !! a ≫= (.!! rr))
                            ++ [ins])
                 else Program._map_2 p !! a ≫= (.!! rr).
Proof.
  intros Ht Hadd. unfold Program.add in Hadd.
  rewrite bool_decide_eq_false_2 in Hadd by done.
  destruct (Instruction.read ins !! 0%nat) as [r0|] eqn:Hr0.
  2:{ destruct (Program.setdefault (Program._map_2 p) _ ∅). by simplify_eq. }
  destruct (Instruction.read ins !! 1%nat) as [r1|] eqn:Hr1.
  2:{ destruct (Program.setdefault (Program._map_2 p) _ ∅). by simplify_eq. }
  pose proof (fun a' => nested_append_lookup (Program._map_2 p)
                          (Instruction.cur_state ins) a' (r0, r1)) as Hnest.
  destruct (Program.setdefault (Program._map_2 p) _ ∅) as [m2 inner].
  destruct (Program.setdefault inner (r0, r1) []) as [inner' l].
  injection Hadd as <-. simpl. exists r0, r1. split; [done|]. split; [done|].
  intros a rr. rewrite Hnest. case_decide as Hd; [|done].
  by destruct Hd as [<- <-].
Qed.

Lemma table_get (p : Program.t) (a : string) (rr : string * string) :
  Spec.table p a !! rr = Program._map_2 p !! a ≫= (.!! rr).
Proof.
  unfold Spec.table. destruct (Program._map_2 p !! a); simpl; [done|].
  by rewrite lookup_empty.
Qed.

(** X20.  Registering an instruction changes no lookup that the
    instruction does not match: a 1-tape lookup of a state and symbol,
    or a 2-tape lookup of a state and two symbols, returns the same
    list after [add] as before when the state or a read symbol of the
    new instruction is neither the looked-up one nor the wildcard. *)
Theorem add_keeps_other_lookups (p p' : Program.t) (ins : Instruction.t) :
  Program.add p ins = (p', Returned tt) →
  (Program.tapes p = 1 →
   ∀ st sym, ¬ matches_1 st sym ins →
     Program._get_1 p' st sym = Program._get_1 p st sym)
  ∧ (Program.tapes p ≠ 1 →
     ∀ st r1 r2, ¬ matches_2 st r1 r2 ins →
       Program._get_2 p' st r1 r2 = Program._get_2 p st r1 r2).
Proof.
  intros Hadd. split.
  - intros Ht st sym Hno.
    destruct (add_lookup_1 p p' ins Ht Hadd) as (r0 & Hr0 & Hlook).
    unfold Program._get_1. rewrite !Hlook.
    rewrite !decide_False; [done|..];
      intros [Ha Hb]; apply Hno; unfold matches_1; rewrite Hr0, Ha, Hb;
      (split; first [by left|by right]).
  - intros Ht st r1 r2 Hno.
    destruct (add_lookup_2 p p' ins Ht Hadd) as (q0 & q1 & Hq0 & Hq1 & Hlook).
    assert (Hpass : ∀ a, a = st ∨ a = "*" →
              Spec.three_tier_pass (Spec.table p' a) r1 r2
              = Spec.three_tier_pass (Spec.table p a) r1 r2).
    { intros a Ha. unfold Spec.three_tier_pass.
      rewrite !table_get, !Hlook.
      rewrite !decide_False; [done|..];
        intros [Hc [= Hb0 Hb1]]; apply Hno; unfold matches_2;
        rewrite Hq0, Hq1, Hc, Hb0, Hb1;
        (split; [tauto|split; first [by left|by right]]). }
    unfold Program._get_2. rewrite !pick_for_state_pass.
    rewrite !Hpass by tauto. done.
Qed.

Lemma add_keeps_other_lookups_witness :
  let ins := Instruction.mk "q" ["a"; "c"] ["x"; "y"] ["l"; "r"] "s" false 0 in
  Program._get_2 (fst (Program.add pair_program ins)) "q" "a" "b"
  = Program._get_2 pair_program "q" "a" "b".
Proof.
  apply (proj2 (add_keeps_other_lookups pair_program
                  (fst (Program.add pair_program
                          (Instruction.mk "q" ["a"; "c"] ["x"; "y"]
                             ["l"; "r"] "s" false 0)))
                  (Instruction.mk "q" ["a"; "c"] ["x"; "y"] ["l"; "r"] "s"
                     false 0)
                  ltac:(vm_compute; reflexivity))).
  - vm_compute. discriminate.
  - unfold matches_2. simpl. intros (_ & _ & [H|H]); discriminate.
Defined.

(** ** The errors of the parser *)

Lemma parse_rule_error (tapes i : Z) (toks : list string) (e : Exn) :
  Program.parse_rule tapes i toks = Raised e →
  ∃ descr,
    e = TMParseError (Program.line_prefix i +:+ descr)
    ∧ descr ∈ [ "expected 5 or 6 tokens for 1-tape rule";
                "expected 8 or 9 tokens for 2-tape rule";
                "symbols must be single characters";
                "direction must be l, r, or *" ].
Proof.
  unfold Program.parse_rule. case_bool_decide as Ht.
  - destruct (bool_decide (Z.of_nat (length toks) = 5)
              || bool_decide (Z.of_nat (length toks) = 6)) eqn:Hn; simpl.
    2:{ intros [= <-]. eexists. split; [done|]. left. }
    apply orb_true_iff in Hn. rewrite !bool_decide_eq_true in Hn.
    assert (Hlen : length (take 5 toks) = 5%nat)
      by (apply take_length_le; lia).
    destruct (take 5 toks) as [|cur [|cs [|ns [|d [|st [|]]]]]]; try done.
    destruct (negb (bool_decide (Py.len cs = 1))
              || negb (bool_decide (Py.len ns = 1))).
    { intros [= <-]. eexists. split; [done|]. right. right. left. }
    destruct (negb (Program.is_direction d)); [|done].
    intros [= <-]. eexists. split; [done|]. right. right. right. left.
  - destruct (bool_decide (Z.of_nat (length toks) = 8)
              || bool_decide (Z.of_nat (length toks) = 9)) eqn:Hn; simpl.
    2:{ intros [= <-]. eexists. split; [done|]. right. left. }
    apply orb_true_iff in Hn. rewrite !bool_decide_eq_true in Hn.
    assert (Hlen : length (take 8 toks) = 8%nat)
      by (apply take_length_le; lia).
    destruct (take 8 toks)
      as [|cur [|r1 [|r2 [|w1 [|w2 [|d1 [|d2 [|st [|]]]]]]]]]; try done.
    destruct (negb (bool_decide (Py.len r1 = 1)) || _).
    { intros [= <-]. eexists. split; [done|]. right. right. left. }
    destruct (negb (Program.is_direction d1)
              || negb (Program.is_direction d2)); [|done].
    intros [= <-]. eexists. split; [done|]. right. right. right. left.
Qed.

Lemma first_error_raised (tapes : Z) (lines : list string) (e : Exn) :
  ∀ i : Z,
    first_error tapes i lines = Raised e →
    ∃ (j : nat) raw,
      lines !! j = Some raw
      ∧ Program.parse_line tapes (i + Z.of_nat j) raw = Raised e.
Proof.
  induction lines as [|raw rest IH]; intros i H; simpl in H; [done|].
  destruct (Program.parse_line tapes i raw) as [o|e'] eqn:Hraw.
  - destruct (IH (i + 1) H) as (j & raw' & Hj & Hp).
    exists (S j), raw'. split; [done|]. rewrite <- Hp. f_equal. lia.
  - injection H as ->. exists 0%nat, raw. split; [done|].
    by rewrite Z.add_0_r.
Qed.

(** X21.  Whatever the text, the only exception that parsing raises is
    a parse error: its message is the word Line, the number of a line
    of the text counted from 1, a colon and one of the four
    descriptions of the parser.  No unpacking or indexing error comes
    out of the parser. *)
Theorem parse_raises_only_parse_errors (p p' : Program.t) (text : string)
    (e : Exn) :
  Program.parse_from_text p text = (p', Raised e) →
  ∃ (n : nat) descr,
    (1 ≤ n ≤ length (Py.splitlines text))%nat
    ∧ e = TMParseError
            ("Line " +:+ Py.str_int (Z.of_nat n) +:+ ": " +:+ descr)
    ∧ descr ∈ [ "expected 5 or 6 tokens for 1-tape rule";
                "expected 8 or 9 tokens for 2-tape rule";
                "symbols must be single characters";
                "direction must be l, r, or *" ].
Proof.
  intros Hparse.
  destruct (parse_from_text_registered p text) as (p1 & Hp1 & _ & _).
  rewrite Hparse in Hp1. injection Hp1 as _ He. symmetry in He.
  apply first_error_raised in He as (j & raw & Hj & Hline).
  rewrite Z.add_0_l in Hline. unfold Program.parse_line in Hline.
  destruct (Program.directive_re_match _); [done|].
  case_bool_decide; [done|].
  destruct (Program.parse_rule _ _ _) as [ins|e'] eqn:Hrule; [done|].
  injection Hline as ->.
  apply parse_rule_error in Hrule as (descr & -> & Hd).
  exists (S j), descr. split.
  { apply lookup_lt_Some in Hj. lia. }
  split; [|done]. unfold Program.line_prefix.
  replace (Z.of_nat j + 1) with (Z.of_nat (S j)) by lia.
  by rewrite !string_app_assoc.
Qed.

Lemma parse_raises_only_parse_errors_witness :
  ∃ (n : nat) descr,
    (1 ≤ n ≤ 3)%nat
    ∧ snd (Program.parse_from_text empty_program partial_text)
      = Raised (TMParseError
                  ("Line " +:+ Py.str_int (Z.of_nat n) +:+ ": " +:+ descr)).
Proof.
  destruct (parse_raises_only_parse_errors empty_program
              (fst (Program.parse_from_text empty_program partial_text))
              partial_text
              (TMParseError "Line 2: expected 5 or 6 tokens for 1-tape rule"))
    as (n & descr & Hn & He & _); [vm_compute; reflexivity|].
  exists n, descr. split; [exact Hn|].
  rewrite <- He. vm_compute. reflexivity.
Defined.
